(** * Relevance pipeline: keyword model, section segmenter, relevance scorer,
      section ranking and extractive summariser

    A shallow embedding of [keyword_analyzer.py], [section_ranker.py] and
    [subsection_analyzer.py], and the properties of the pipeline proved over it.

    Modelling conventions.
    - A Python [str] is a [string] whose characters are the code points
      0..255; the character predicates below ([isspace], [lower], ...) follow
      Python's Unicode tables on that range.
    - A Python [float] is an exact rational of [Q]: binary rounding error and
      overflow are outside the model.  [round(x, 3)] is rounding to the
      nearest multiple of 1/1000, halves to even.  Floats are compared with
      [Qeq] ([==]); a literal [0.0] is the rational [0].  The two divisions
      of the program come after a test that the text is not empty, so their
      divisor is never zero ([relevance_divisor_nonzero],
      [sentence_divisor_nonzero]) and [/] is the division of [Q].  Where
      binary rounding decides (a quotient on a rounding boundary, two scores
      that are equal as rationals only) a value of the model can differ
      from the value the program computes; the statements below are about
      the order and the origin of results, about the formula of a score, or
      about values that are exact in binary64.
    - A Python [int] is a [Z]; lengths and occurrence counts are [nat].
    - [dict.get] on the keyword weights is lookup in a [gmap]; a dict that is
      iterated ([extracted_texts], a [Counter]) is an association list in
      insertion order.
    - [list.sort(key=..., reverse=True)] is a stable sort: elements with equal
      keys keep their order.  It is embedded as a stable insertion sort.
    - [re] patterns are terms of [regex], run by a backtracking matcher with
      Python's priorities (leftmost match, greedy repetition). *)

From Stdlib Require Import String Ascii List Arith NArith ZArith QArith Qround Lia Bool.
From Stdlib Require Import Sorting.Sorted Sorting.Permutation.
From stdpp Require Import gmap strings sorting.

Import ListNotations.
Close Scope Q_scope.
Open Scope string_scope.
Open Scope list_scope.
Open Scope nat_scope.

(** ** Python [str] primitives *)

Module PyStr.

Definition code (c : ascii) : N := N_of_ascii c.

Definition in_range (lo hi : N) (c : ascii) : bool :=
  (lo <=? code c)%N && (code c <=? hi)%N.

(** [str.isspace] on one character, also the class [\s] of [re]. *)
Definition isspace (c : ascii) : bool :=
  in_range 9 13 c || in_range 28 32 c || (code c =? 133)%N || (code c =? 160)%N.

(** The class [\d] of [re]: decimal digits. *)
Definition isdecimal (c : ascii) : bool := in_range 48 57 c.

Definition is_AZ (c : ascii) : bool := in_range 65 90 c.
Definition is_az (c : ascii) : bool := in_range 97 122 c.

Definition isupper_c (c : ascii) : bool :=
  is_AZ c || in_range 192 214 c || in_range 216 222 c.

Definition islower_c (c : ascii) : bool :=
  is_az c || (code c =? 170)%N || (code c =? 181)%N || (code c =? 186)%N
  || in_range 223 246 c || in_range 248 255 c.

(** [str.isalnum] on one character: letters, digits and the numeric
    characters of the range (superscripts and fractions). *)
Definition isalnum_c (c : ascii) : bool :=
  isupper_c c || islower_c c || isdecimal c
  || (code c =? 178)%N || (code c =? 179)%N || (code c =? 185)%N
  || in_range 188 190 c.

(** The class [\w] of [re]. *)
Definition isword (c : ascii) : bool := isalnum_c c || (code c =? 95)%N.

Definition lower_c (c : ascii) : ascii :=
  if isupper_c c then ascii_of_N (code c + 32) else c.

(** [s.lower()] *)
Fixpoint lower (s : string) : string :=
  match s with
  | EmptyString => EmptyString
  | String c s' => String (lower_c c) (lower s')
  end.

(** [len(s)] *)
Definition len (s : string) : nat := String.length s.

Fixpoint all_chars (p : ascii -> bool) (s : string) : bool :=
  match s with
  | EmptyString => true
  | String c s' => p c && all_chars p s'
  end.

(** [s.lstrip()] *)
Fixpoint lstrip (s : string) : string :=
  match s with
  | EmptyString => EmptyString
  | String c s' => if isspace c then lstrip s' else s
  end.

(** [s.rstrip()] *)
Fixpoint rstrip (s : string) : string :=
  match s with
  | EmptyString => EmptyString
  | String c s' =>
      match rstrip s' with
      | EmptyString => if isspace c then EmptyString else String c EmptyString
      | r => String c r
      end
  end.

(** [s.strip()] *)
Definition strip (s : string) : string := rstrip (lstrip s).

(** [s.startswith(p)] *)
Fixpoint startswith (p s : string) : bool :=
  match p, s with
  | EmptyString, _ => true
  | String a p', String b s' => Ascii.eqb a b && startswith p' s'
  | String _ _, EmptyString => false
  end.

(** [sub in s] *)
Fixpoint contains (sub s : string) : bool :=
  startswith sub s ||
  match s with
  | EmptyString => false
  | String _ s' => contains sub s'
  end.

(** [s.count(sub)] for a non-empty [sub]: occurrences are counted from the
    left and do not overlap.  [skip] is the number of characters still
    covered by the occurrence found last. *)
Fixpoint count_from (sub : string) (skip : nat) (s : string) : nat :=
  match s with
  | EmptyString => 0
  | String _ s' =>
      match skip with
      | S n => count_from sub n s'
      | O => if startswith sub s
             then S (count_from sub (len sub - 1) s')
             else count_from sub 0 s'
      end
  end.

(** [s.count(sub)]; the empty string occurs [len(s) + 1] times. *)
Definition count (s sub : string) : nat :=
  match sub with
  | EmptyString => S (len s)
  | _ => count_from sub 0 s
  end.

(** [s[:n]] *)
Fixpoint take (n : nat) (s : string) : string :=
  match n, s with
  | S n', String c s' => String c (take n' s')
  | _, _ => EmptyString
  end.

(** [s.split(sep)] for a one-character separator. *)
Fixpoint split_char (sep : ascii) (s : string) : list string :=
  match s with
  | EmptyString => [EmptyString]
  | String c s' =>
      if Ascii.eqb c sep then EmptyString :: split_char sep s'
      else match split_char sep s' with
           | p :: ps => String c p :: ps
           | [] => [String c EmptyString]
           end
  end.

(** [sep.join(l)] *)
Fixpoint join (sep : string) (l : list string) : string :=
  match l with
  | [] => EmptyString
  | [x] => x
  | x :: l' => x +:+ sep +:+ join sep l'
  end.

(** [s.isupper()]: no lower-case character and at least one upper-case one. *)
Fixpoint isupper_from (cased : bool) (s : string) : bool :=
  match s with
  | EmptyString => cased
  | String c s' =>
      if islower_c c then false
      else isupper_from (cased || isupper_c c) s'
  end.

Definition isupper (s : string) : bool := isupper_from false s.

(** [s.istitle()]: upper-case characters only after uncased ones, lower-case
    characters only after cased ones, and at least one cased character. *)
Fixpoint istitle_from (cased previous_is_cased : bool) (s : string) : bool :=
  match s with
  | EmptyString => cased
  | String c s' =>
      if isupper_c c then
        if previous_is_cased then false else istitle_from true true s'
      else if islower_c c then
        if previous_is_cased then istitle_from true true s' else false
      else istitle_from cased false s'
  end.

Definition istitle (s : string) : bool := istitle_from false false s.

(** [s.isalnum()] *)
Definition isalnum (s : string) : bool :=
  match s with
  | EmptyString => false
  | _ => all_chars isalnum_c s
  end.

(** Truth value of a string: [if s] / [if not s]. *)
Definition truthy (s : string) : bool :=
  match s with
  | EmptyString => false
  | _ => true
  end.

(** [s[n:]] *)
Fixpoint drop (n : nat) (s : string) : string :=
  match n, s with
  | S n', String _ s' => drop n' s'
  | _, _ => s
  end.

(** The number of positions of [s] at which the non-empty [sub] occurs. *)
Fixpoint occurrences (sub s : string) : nat :=
  match s with
  | EmptyString => 0
  | String _ s' => (if startswith sub s then 1 else 0) + occurrences sub s'
  end.

(** No proper suffix of [sub] is a prefix of it: two occurrences of [sub]
    cannot overlap. *)
Definition borderless (sub : string) : bool :=
  forallb (fun j => negb (startswith (drop j sub) sub)) (seq 1 (len sub - 1)).

End PyStr.

(** ** Regular expressions of [re] *)

Module Re.
Import PyStr.

(** The fragment of the pattern language the program uses.  [Alt] is ordered
    choice and [Star] is greedy, as in a backtracking engine. *)
Inductive regex : Type :=
| Chr (p : ascii -> bool)
| Eps
| Seq (r1 r2 : regex)
| Alt (r1 r2 : regex)
| Star (r : regex)
| Bol
| Eol
| WordB.

Definition Plus (r : regex) : regex := Seq r (Star r).
Definition Opt (r : regex) : regex := Alt r Eps.
Definition Lit (c : ascii) : regex := Chr (Ascii.eqb c).

(** A literal character under [re.IGNORECASE]. *)
Definition LitI (c : ascii) : regex :=
  Chr (fun x => Ascii.eqb (lower_c x) (lower_c c)).

Fixpoint StrI (s : string) : regex :=
  match s with
  | EmptyString => Eps
  | String c s' => Seq (LitI c) (StrI s')
  end.

Definition word_at (c : option ascii) : bool :=
  match c with
  | Some x => isword x
  | None => false
  end.

Definition head (s : string) : option ascii :=
  match s with
  | EmptyString => None
  | String c _ => Some c
  end.

(** [rmatch r prev s k] matches [r] at the front of [s], where [prev] is the
    character before the position ([None] at the start of the text), and
    passes the position reached to the continuation [k]; when [k] fails the
    matcher backtracks into [r]. *)
Fixpoint rmatch {T : Type} (r : regex) (prev : option ascii) (s : string)
    (k : option ascii -> string -> option T) {struct r} : option T :=
  match r with
  | Chr p =>
      match s with
      | String c s' => if p c then k (Some c) s' else None
      | EmptyString => None
      end
  | Eps => k prev s
  | Seq r1 r2 => rmatch r1 prev s (fun prev' s' => rmatch r2 prev' s' k)
  | Alt r1 r2 =>
      match rmatch r1 prev s k with
      | Some x => Some x
      | None => rmatch r2 prev s k
      end
  | Star r' =>
      (fix star (fuel : nat) (prev : option ascii) (s : string) : option T :=
         match fuel with
         | O => k prev s
         | S fuel' =>
             match rmatch r' prev s
                     (fun prev' s' =>
                        if len s' <? len s then star fuel' prev' s' else None) with
             | Some x => Some x
             | None => k prev s
             end
         end) (len s) prev s
  | Bol => match prev with None => k prev s | Some _ => None end
  | Eol =>
      match s with
      | EmptyString => k prev s
      | String c EmptyString => if Ascii.eqb c "010" then k prev s else None
      | _ => None
      end
  | WordB => if xorb (word_at prev) (word_at (head s)) then k prev s else None
  end.

(** Length of the match of [r] at the front of [s], if there is one. *)
Definition match_len (r : regex) (prev : option ascii) (s : string) : option nat :=
  rmatch r prev s (fun _ rest => Some (len s - len rest)).

(** [re.match(r, s)] as a truth value. *)
Definition re_match (r : regex) (s : string) : bool :=
  match match_len r None s with
  | Some _ => true
  | None => false
  end.

Definition cons_char (c : ascii) (l : list string) : list string :=
  match l with
  | p :: ps => String c p :: ps
  | [] => [String c EmptyString]
  end.

(** [re.split(r, s)] for a pattern without groups that matches no empty
    string (every pattern this program splits on).  The head of the result
    is the piece being read; [skip] characters of the last match are still
    to be dropped. *)
Fixpoint split_from (r : regex) (skip : nat) (prev : option ascii) (s : string)
    : list string :=
  match s with
  | EmptyString => [EmptyString]
  | String c s' =>
      match skip with
      | S n => split_from r n (Some c) s'
      | O =>
          match match_len r prev s with
          | Some (S n) => EmptyString :: split_from r n (Some c) s'
          | _ => cons_char c (split_from r 0 (Some c) s')
          end
      end
  end.

Definition re_split (r : regex) (s : string) : list string :=
  split_from r 0 None s.

(** [re.findall(r, s)] for a pattern without groups that matches no empty
    string: the matched substrings, left to right, not overlapping. *)
Fixpoint findall_from (r : regex) (skip : nat) (prev : option ascii) (s : string)
    : list string :=
  match s with
  | EmptyString => []
  | String c s' =>
      match skip with
      | S n => findall_from r n (Some c) s'
      | O =>
          match match_len r prev s with
          | Some (S n) => take (S n) s :: findall_from r n (Some c) s'
          | _ => findall_from r 0 (Some c) s'
          end
      end
  end.

Definition re_findall (r : regex) (s : string) : list string :=
  findall_from r 0 None s.

(** Character classes of the patterns. *)
Definition cls_space : regex := Chr isspace.        (* \s *)
Definition cls_digit : regex := Chr isdecimal.      (* \d *)
Definition cls_word : regex := Chr isword.          (* \w *)
Definition cls_AZ : regex := Chr is_AZ.             (* [A-Z] *)
Definition cls_az : regex := Chr is_az.             (* [a-z] *)

(** [[A-Z]] and [[a-z]] under [re.IGNORECASE]. *)
Definition cls_letter_i : regex := Chr (fun c => is_AZ c || is_az c).

(** [[.!?]] *)
Definition is_stop (c : ascii) : bool :=
  Ascii.eqb c "." || Ascii.eqb c "!" || Ascii.eqb c "?".
Definition cls_stop : regex := Chr is_stop.

Definition newline : ascii := "010".

(** [\n\s*\n] *)
Definition re_paragraph_break : regex :=
  Seq (Lit newline) (Seq (Star cls_space) (Lit newline)).

(** [[.!?]+\s+] *)
Definition re_sentence_break : regex := Seq (Plus cls_stop) (Plus cls_space).

(** [^\d+\.?\s+[A-Z]] *)
Definition re_numbered_heading : regex :=
  Seq Bol (Seq (Plus cls_digit) (Seq (Opt (Lit "."))
    (Seq (Plus cls_space) cls_AZ))).

(** [^[A-Z][A-Z\s]{2,}$] *)
Definition re_caps_heading : regex :=
  let c := Chr (fun x => is_AZ x || isspace x) in
  Seq Bol (Seq cls_AZ (Seq c (Seq c (Seq (Star c) Eol)))).

(** [^[A-Z][a-z]+(\s[A-Z][a-z]+)*$] *)
Definition re_title_heading : regex :=
  Seq Bol (Seq cls_AZ (Seq (Plus cls_az)
    (Seq (Star (Seq cls_space (Seq cls_AZ (Plus cls_az)))) Eol))).

(** [^\d+\.\d+\.?\s+[A-Z]] *)
Definition re_subnumbered_heading : regex :=
  Seq Bol (Seq (Plus cls_digit) (Seq (Lit ".") (Seq (Plus cls_digit)
    (Seq (Opt (Lit ".")) (Seq (Plus cls_space) cls_AZ))))).

(** [\b\w+\b] *)
Definition re_word : regex := Seq WordB (Seq (Plus cls_word) WordB).

(** [\b[A-Z][a-z]+ [A-Z][a-z]+\b] under [re.IGNORECASE] *)
Definition re_title_phrase : regex :=
  Seq WordB (Seq cls_letter_i (Seq (Plus cls_letter_i) (Seq (Lit " ")
    (Seq cls_letter_i (Seq (Plus cls_letter_i) WordB))))).

(** [\b\w+ <word>\b] under [re.IGNORECASE] *)
Definition re_word_then (w : string) : regex :=
  Seq WordB (Seq (Plus cls_word) (Seq (Lit " ") (Seq (StrI w) WordB))).

(** [\b\w+ networks?\b] under [re.IGNORECASE] *)
Definition re_word_networks : regex :=
  Seq WordB (Seq (Plus cls_word) (Seq (Lit " ")
    (Seq (StrI "network") (Seq (Opt (LitI "s")) WordB)))).

End Re.

(** ** Floats *)

Module PyFloat.

Definition Qltb (a b : Q) : bool := negb (Qle_bool b a).

(** Nearest integer, halves to even. *)
Definition round_half_even (q : Q) : Z :=
  let f := Qfloor q in
  match (q - inject_Z f ?= 1 # 2)%Q with
  | Lt => f
  | Gt => (f + 1)%Z
  | Eq => if Z.even f then f else (f + 1)%Z
  end.

(** [round(q, 3)] *)
Definition round3 (q : Q) : Q := (round_half_even (q * 1000) # 1000)%Q.

End PyFloat.

(** ** [list.sort(key=..., reverse=True)] and [enumerate] *)

Section StableSort.
Context {A : Type}.
(** [lt x y]: the key of [x] is smaller than the key of [y]. *)
Variable lt : A -> A -> bool.

(** [x] goes behind the elements with a larger key and in front of the
    first one whose key is not larger. *)
Fixpoint insert_desc (x : A) (l : list A) : list A :=
  match l with
  | [] => [x]
  | y :: l' => if lt x y then y :: insert_desc x l' else x :: l
  end.

Fixpoint sort_desc (l : list A) : list A :=
  match l with
  | [] => []
  | x :: l' => insert_desc x (sort_desc l')
  end.

(** Two elements have equal keys. *)
Definition same_key (x y : A) : bool := negb (lt x y) && negb (lt y x).
End StableSort.

(** [a] occurs at an earlier position than [b] in [l]. *)
Definition occurs_before {A : Type} (l : list A) (a b : A) : Prop :=
  exists l1 l2 l3, l = l1 ++ a :: l2 ++ b :: l3.

(** [enumerate(l, start)] *)
Fixpoint enumerate {A : Type} (start : nat) (l : list A) : list (nat * A) :=
  match l with
  | [] => []
  | x :: l' => (start, x) :: enumerate (S start) l'
  end.

(** ** [keyword_analyzer.py] *)

Module KeywordAnalyzer.
Import PyStr Re.

(** The dictionary returned by [extract_keywords]. *)
Record keywords : Type := {
  persona_keywords : list string;
  job_keywords : list string;
  combined_keywords : list string;
  keyword_weights : gmap string Z
}.

(** [Counter]: the keys in the order of their first insertion, with counts. *)
Fixpoint counter_add (c : list (string * Z)) (w : string) : list (string * Z) :=
  match c with
  | [] => [(w, 1%Z)]
  | (k, n) :: c' =>
      if String.eqb k w then (k, (n + 1)%Z) :: c' else (k, n) :: counter_add c' w
  end.

Definition Counter (l : list string) : list (string * Z) :=
  fold_left counter_add l [].

Definition count_lt (a b : string * Z) : bool := (snd a <? snd b)%Z.

(** [Counter.most_common(n)]: the [n] entries with the largest counts, equal
    counts in the order first encountered. *)
Definition most_common (n : nat) (c : list (string * Z)) : list (string * Z) :=
  firstn n (sort_desc count_lt c).

Definition basic_stop_words : list string :=
  ["the"; "a"; "an"; "and"; "or"; "but"; "in"; "on"; "at"; "to"; "for"; "of";
   "with"; "by"].

Definition domain_stop_words : list string :=
  ["using"; "used"; "use"; "make"; "get"; "go"; "come"; "take";
   "give"; "want"; "need"; "like"; "know"; "think"; "see"; "look"].

Definition bigram_patterns : list regex :=
  [re_title_phrase; re_word_then "learning"; re_word_then "analysis";
   re_word_then "discovery"; re_word_networks].

(** [pos.startswith(('NN', 'JJ', 'VB'))] *)
Definition is_content_tag (pos : string) : bool :=
  startswith "NN" pos || startswith "JJ" pos || startswith "VB" pos.



(** What [list(set(l))] guarantees: the elements of [l], each once, in some
    order. *)
Definition set_iteration (list_set : list string -> list string) : Prop :=
  forall l, List.NoDup (list_set l) /\ forall x, In x (list_set l) <-> In x l.

(** The elements of [l] in the order of their first occurrence. *)
Fixpoint first_occurrences (l : list string) : list string :=
  match l with
  | [] => []
  | x :: l' => x :: List.filter (fun y => negb (String.eqb y x)) (first_occurrences l')
  end.

Section Collaborators.
(** The linguistic primitives are external (NLTK); a call that raises
    returns [None]. *)
Variable stopwords_english : option (list string).
Variable word_tokenize : string -> option (list string).
Variable pos_tag : list string -> option (list (string * string)).
(** [list(set(l))]: the elements of [l] without duplicates, in the
    iteration order of the set. *)
Variable list_set : list string -> list string.

(** [self.stop_words] as built by [__init__]. *)
Definition stop_words : list string :=
  match stopwords_english with
  | Some l => l
  | None => basic_stop_words
  end ++ domain_stop_words.

Definition is_stop_word (token : string) : bool :=
  existsb (String.eqb token) stop_words.

(** [_extract_bigrams] *)
Definition extract_bigrams (text : string) : list string :=
  list_set
    (flat_map (fun pattern => map lower (re_findall pattern text)) bigram_patterns).

(** The candidates of [_extract_from_text] before duplicates are removed:
    the filtered tokens in the order of the text, then the phrases. *)
Definition candidate_keywords (text : string) : list string :=
  let tokens :=
    match word_tokenize (lower text) with
    | Some tokens => tokens
    | None => re_findall re_word (lower text)
    end in
  let tokens :=
    List.filter (fun token => isalnum token && (2 <? len token)) tokens in
  let tokens := List.filter (fun token => negb (is_stop_word token)) tokens in
  let keywords :=
    match pos_tag tokens with
    | Some pos_tags =>
        map fst (List.filter (fun '(_, pos) => is_content_tag pos) pos_tags)
    | None => tokens
    end in
  keywords ++ extract_bigrams text.

(** [_extract_from_text] *)
Definition extract_from_text (text : string) : list string :=
  if negb (truthy text) then [] else list_set (candidate_keywords text).

(** [extract_keywords] *)
Definition extract_keywords (persona job_to_be_done : string) : keywords :=
  let persona_keywords := extract_from_text persona in
  let job_keywords := extract_from_text job_to_be_done in
  let all_keywords := persona_keywords ++ job_keywords in
  let keyword_weights := Counter all_keywords in
  let top_keywords := map fst (most_common 20 keyword_weights) in
  {| persona_keywords := persona_keywords;
     job_keywords := job_keywords;
     combined_keywords := top_keywords;
     keyword_weights := list_to_map keyword_weights |}.

(** The keywords of one source in the words of the specification: without
    duplicates, in the order of first occurrence in the source. *)
Definition spec_source_keywords (text : string) : list string :=
  if negb (truthy text) then [] else first_occurrences (candidate_keywords text).

(** The ranked keyword list in the words of the specification. *)
Definition spec_ranked_keywords (persona job_to_be_done : string) : list string :=
  map fst
    (most_common 20
       (Counter (spec_source_keywords persona ++ spec_source_keywords job_to_be_done))).
End Collaborators.

End KeywordAnalyzer.

(** ** [section_ranker.py] *)

Module SectionRanker.
Import PyStr Re PyFloat KeywordAnalyzer.

Definition min_section_length : nat := 100.
Definition max_sections_per_page : nat := 5.

(** The paragraph separator the segmenter appends: two newlines. *)
Definition nl2 : string := String newline (String newline EmptyString).

Definition header_patterns : list regex :=
  [re_numbered_heading; re_caps_heading; re_title_heading; re_subnumbered_heading].

(** [_is_section_header] *)
Definition is_section_header (text : string) : bool :=
  if 200 <? len text then false
  else existsb (fun pattern => re_match pattern (strip text)) header_patterns.

(** One turn of the loop of [_split_by_length]; the state is
    [(sections, current_section)]. *)
Definition split_by_length_step (target_length : nat)
    (st : list string * string) (sentence : string) : list string * string :=
  let '(sections, current_section) := st in
  if (target_length <? len current_section + len sentence) && truthy current_section
  then (sections ++ [strip current_section], sentence +:+ ". ")
  else (sections, current_section +:+ sentence +:+ ". ").

(** [_split_by_length] *)
Definition split_by_length (text : string) (target_length : nat) : list string :=
  let sentences := re_split re_sentence_break text in
  let '(sections, current_section) :=
    fold_left (split_by_length_step target_length) sentences ([], EmptyString) in
  if truthy current_section then sections ++ [strip current_section] else sections.

(** One turn of the paragraph loop of [_split_into_sections]. *)
Definition paragraph_step (st : list string * string) (paragraph : string)
    : list string * string :=
  let '(sections, current_section) := st in
  let paragraph := strip paragraph in
  if negb (truthy paragraph) then st
  else if is_section_header paragraph then
    (if truthy current_section then sections ++ [strip current_section] else sections,
     paragraph +:+ nl2)
  else (sections, current_section +:+ paragraph +:+ nl2).

(** [_split_into_sections] *)
Definition split_into_sections (page_text : string) : list string :=
  if negb (truthy page_text) then []
  else
    let paragraphs := re_split re_paragraph_break page_text in
    let '(sections, current_section) :=
      fold_left paragraph_step paragraphs ([], EmptyString) in
    let sections :=
      if truthy current_section then sections ++ [strip current_section] else sections in
    let sections :=
      if (length sections <=? 1) && (1000 <? len page_text)
      then split_by_length page_text 800
      else sections in
    firstn max_sections_per_page sections.

(** One turn of the keyword loop of [_calculate_relevance_score]. *)
Definition score_step (text_lower : string) (keyword_weights : gmap string Z)
    (score : Q) (keyword : string) : Q :=
  let count := count text_lower (lower keyword) in
  if 0 <? count then
    let weight := default 1%Z (keyword_weights !! keyword) in
    (score + inject_Z (Z.of_nat count * weight * Z.of_nat (len keyword)))%Q
  else score.

(** The total before normalisation. *)
Definition score_total (section_text : string) (keywords : list string)
    (keyword_weights : gmap string Z) : Q :=
  fold_left (score_step (lower section_text) keyword_weights) keywords 0%Q.

(** [_calculate_relevance_score] *)
Definition calculate_relevance_score (section_text : string)
    (keywords : list string) (keyword_weights : gmap string Z) : Q :=
  if negb (truthy section_text) || match keywords with [] => true | _ => false end
  then 0%Q
  else
    let score := score_total section_text keywords keyword_weights in
    let normalized_score :=
      (score / (inject_Z (Z.of_nat (len section_text)) / 1000))%Q in
    round3 normalized_score.

Definition looks_like_title (line : string) : bool :=
  isupper line || istitle line || re_match re_numbered_heading line.

(** The loop over the first lines of [_extract_section_title]. *)
Fixpoint first_title (max_length : nat) (lines : list string) : option string :=
  match lines with
  | [] => None
  | line :: rest =>
      let line := strip line in
      if truthy line && (len line <? max_length) && looks_like_title line
      then Some line
      else first_title max_length rest
  end.

(** [_extract_section_title] *)
Definition extract_section_title (section_text : string) (max_length : nat) : string :=
  let lines := split_char newline section_text in
  match first_title max_length (firstn 3 lines) with
  | Some line => line
  | None =>
      let first_sentence := strip (hd EmptyString (re_split cls_stop section_text)) in
      if max_length <? len first_sentence
      then take max_length first_sentence +:+ "..."
      else first_sentence
  end.

Record section_data : Type := {
  document : string;
  page_number : nat;
  section_index : nat;
  section_title : string;
  section_text : string;
  relevance_score : Q;
  importance_rank : nat
}.

Definition set_importance_rank (rank : nat) (s : section_data) : section_data :=
  {| document := document s;
     page_number := page_number s;
     section_index := section_index s;
     section_title := section_title s;
     section_text := section_text s;
     relevance_score := relevance_score s;
     importance_rank := rank |}.

(** The sections of one page that are long enough, scored. *)
Definition page_sections (kw : keywords) (filename : string)
    (page : nat * string) : list section_data :=
  let '(page_num, page_text) := page in
  flat_map
    (fun '(section_idx, text) =>
       if len text <? min_section_length then []
       else [ {| document := filename;
                 page_number := page_num;
                 section_index := section_idx;
                 section_title := extract_section_title text 100;
                 section_text := text;
                 relevance_score :=
                   calculate_relevance_score text (combined_keywords kw)
                     (keyword_weights kw);
                 importance_rank := 0 |} ])
    (enumerate 0 (split_into_sections page_text)).

(** [all_sections] before the sort: documents in order, pages in order,
    sections in order. *)
Definition collect_sections (extracted_texts : list (string * list string))
    (kw : keywords) : list section_data :=
  flat_map
    (fun '(filename, pages) =>
       flat_map (page_sections kw filename) (enumerate 1 pages))
    extracted_texts.

Definition score_lt (a b : section_data) : bool :=
  Qltb (relevance_score a) (relevance_score b).

Definition assign_ranks (l : list section_data) : list section_data :=
  map (fun '(rank, s) => set_importance_rank rank s) (enumerate 1 l).

(** [rank_sections] *)
Definition rank_sections (extracted_texts : list (string * list string))
    (kw : keywords) : list section_data :=
  assign_ranks (sort_desc score_lt (collect_sections extracted_texts kw)).

(** The section texts the ranking keeps: the sections of every page of every
    document that have at least [min_section_length] characters. *)
Definition qualifying_sections (extracted_texts : list (string * list string))
    : list string :=
  flat_map
    (fun '(_, pages) =>
       flat_map
         (fun page_text =>
            List.filter (fun text => min_section_length <=? len text)
              (split_into_sections page_text))
         pages)
    extracted_texts.

(** Discovery order: [a] comes from an earlier document than [b], or from an
    earlier page of the same document, or from the same page with a smaller
    section index. *)
Definition discovered_before (extracted_texts : list (string * list string))
    (a b : section_data) : Prop :=
  exists i j pages_a pages_b,
    extracted_texts !! i = Some (document a, pages_a) /\
    extracted_texts !! j = Some (document b, pages_b) /\
    (i < j \/
     (i = j /\
      (page_number a < page_number b \/
       (page_number a = page_number b /\ section_index a < section_index b)))).

End SectionRanker.

(** ** [subsection_analyzer.py] *)

Module SubsectionAnalyzer.
Import PyStr Re PyFloat KeywordAnalyzer.

Definition summary_sentences : nat := 3.

(** [_split_sentences] *)
Definition split_sentences (text : string) : list string :=
  List.filter (fun sentence => 20 <? len sentence)
    (map strip (re_split re_sentence_break text)).

(** [keyword.lower() in sentence_lower] *)
Definition keyword_present (sentence_lower keyword : string) : bool :=
  contains (lower keyword) sentence_lower.

(** [_score_sentence] *)
Definition score_sentence (sentence : string) (keywords : list string) : Q :=
  if negb (truthy sentence) || match keywords with [] => true | _ => false end
  then 0%Q
  else
    let sentence_lower := lower sentence in
    let score :=
      fold_left
        (fun score keyword =>
           if keyword_present sentence_lower keyword
           then (score + inject_Z (Z.of_nat (len keyword)))%Q
           else score)
        keywords 0%Q in
    let keyword_count :=
      length (List.filter (keyword_present sentence_lower) keywords) in
    let score :=
      if 1 <? keyword_count
      then (score * (1 + inject_Z (Z.of_nat keyword_count) * (2 # 10)))%Q
      else score in
    (score / (inject_Z (Z.of_nat (len sentence)) / 100))%Q.

Definition sentence_score_lt (a b : string * Q) : bool := Qltb (snd a) (snd b).

(** [_generate_extractive_summary] *)
Definition generate_extractive_summary (text : string) (keywords : list string)
    : string :=
  if negb (truthy text) then EmptyString
  else
    let sentences := split_sentences text in
    if length sentences <=? summary_sentences then text
    else
      let sentence_scores :=
        map (fun sentence => (sentence, score_sentence sentence keywords)) sentences in
      let sentence_scores := sort_desc sentence_score_lt sentence_scores in
      let top_sentences := firstn summary_sentences sentence_scores in
      let selected_sentences := map fst top_sentences in
      let original_order_sentences :=
        List.filter (fun sentence => existsb (String.eqb sentence) selected_sentences)
          sentences in
      join " " original_order_sentences.

Record summary_data : Type := {
  document : string;
  page_number : nat;
  section_title : string;
  importance_rank : nat;
  refined_text : string
}.

(** [analyze_subsections] *)
Definition analyze_subsections (top_sections : list SectionRanker.section_data)
    (kw : keywords) : list summary_data :=
  map (fun section =>
         {| document := SectionRanker.document section;
            page_number := SectionRanker.page_number section;
            section_title := SectionRanker.section_title section;
            importance_rank := SectionRanker.importance_rank section;
            refined_text :=
              generate_extractive_summary (SectionRanker.section_text section)
                (combined_keywords kw) |})
      top_sections.

(** The sentence score in the words of the specification: the lengths of
    the keywords present in the sentence, summed, and multiplied by
    [1 + 0.2 * matched] when more than one keyword is present. *)
Definition spec_sentence_score (sentence : string) (keywords : list string) : Q :=
  let matched := List.filter (keyword_present (lower sentence)) keywords in
  let total := inject_Z (Z.of_nat (list_sum (map len matched))) in
  if 1 <? length matched
  then (total * (1 + inject_Z (Z.of_nat (length matched)) * (2 # 10)))%Q
  else total.

End SubsectionAnalyzer.

(** ** Concrete inputs *)

Module Examples.
Import PyStr Re PyFloat KeywordAnalyzer SubsectionAnalyzer SectionRanker.

Fixpoint repeat_char (n : nat) (c : ascii) : string :=
  match n with
  | O => EmptyString
  | S n' => String c (repeat_char n' c)
  end.

(** The keyword list and weights of the scoring example. *)
Definition drug_keywords : list string := ["drug discovery"; "neural"].
Definition drug_weights : gmap string Z :=
  <["drug discovery" := 3%Z]> (<["neural" := 1%Z]> ∅).

(** A section of 2000 characters with "drug discovery" twice and "neural"
    once. *)
Definition section_2000 : string :=
  "Drug Discovery with neural nets; drug discovery " +:+ repeat_char 1952 "x".

(** Two documents: one page with two sections that match no keyword, and one
    page with a section that matches "neural". *)
Definition ranking_texts : list (string * list string) :=
  [("a.pdf",
    ["1. Cats" +:+ nl2 +:+ repeat_char 100 "a" +:+ nl2
     +:+ "2. Dogs" +:+ nl2 +:+ repeat_char 100 "b"]);
   ("b.pdf", ["neural " +:+ repeat_char 120 "c"])].

Definition ranking_keywords : keywords :=
  {| persona_keywords := ["neural"];
     job_keywords := [];
     combined_keywords := ["neural"];
     keyword_weights := {["neural" := 1%Z]} |}.

Definition no_section : section_data :=
  {| document := EmptyString; page_number := 0; section_index := 0;
     section_title := EmptyString; section_text := EmptyString;
     relevance_score := 0%Q; importance_rank := 0 |}.

(** The second and the third section of the ranking of [ranking_texts]. *)
Definition ranked_second : section_data :=
  Eval vm_compute in
    nth 1 (rank_sections ranking_texts ranking_keywords) no_section.
Definition ranked_third : section_data :=
  Eval vm_compute in
    nth 2 (rank_sections ranking_texts ranking_keywords) no_section.

(** A text of two sentences. *)
Definition short_text : string :=
  "Neural networks help drug discovery.  They are trained on assay data!".

(** A sentence of 25 characters that contains "neural". *)
Definition neural_sentence : string := "neural nets are here ok!!".

(** A page of 1001 spaces. *)
Definition blank_page_1001 : string := repeat_char 1001 " ".

(** A text of at most 1000 blank characters. *)
Definition blank_page_short : string :=
  String " " (String newline (String "009" (String newline "   "))).

(** A text in which the first sentence comes again as the fourth. *)
Definition cats_sentence : string := "The first sentence talks about cats".
Definition discovery_sentence : string := "Neural networks help drug discovery".
Definition another_sentence : string := "Another neural sentence is right here".
Definition repeated_sentence_text : string :=
  cats_sentence +:+ ". " +:+ discovery_sentence +:+ ". " +:+ another_sentence
  +:+ ". " +:+ cats_sentence +:+ ". Done.".

(** A set that is iterated in the reverse order of insertion. *)
Definition reversed_set (l : list string) : list string :=
  rev (first_occurrences l).

(** Collaborators that are not available: the fallbacks are taken. *)
Definition no_tokenizer (text : string) : option (list string) := None.
Definition no_tagger (tokens : list string) : option (list (string * string)) := None.

End Examples.

(** ** Shapes of strings *)

Module StrShape.
Import PyStr.

(** The first character is not white space. *)
Definition starts_nonspace (s : string) : bool :=
  match s with
  | EmptyString => false
  | String c _ => negb (isspace c)
  end.

(** The last character is not white space. *)
Fixpoint ends_nonspace (s : string) : bool :=
  match s with
  | EmptyString => false
  | String c EmptyString => negb (isspace c)
  | String _ s' => ends_nonspace s'
  end.

(** [c not in s] *)
Definition lacks (c : ascii) (s : string) : bool :=
  all_chars (fun x => negb (Ascii.eqb x c)) s.

(** [s.endswith(p)] *)
Fixpoint endswith (p s : string) : bool :=
  String.eqb p s ||
  match s with
  | EmptyString => false
  | String _ s' => endswith p s'
  end.

(** Every newline is directly followed by a character that is not white
    space: the text has no blank line and no line that starts with white
    space. *)
Fixpoint lines_tight (s : string) : bool :=
  match s with
  | EmptyString => true
  | String c s' =>
      (negb (Ascii.eqb c "010") || starts_nonspace s') && lines_tight s'
  end.

End StrShape.

(** ** [pdf_extractor.py] *)

Module PDFExtractor.
Import PyStr Re.

Definition max_pages_per_pdf : nat := 100.

(** The separator of ['\n'.join]. *)
Definition nl : string := String newline EmptyString.

(** [_clean_text] *)
Definition clean_text (text : string) : string :=
  if negb (truthy text) then EmptyString
  else
    let lines := split_char newline text in
    let cleaned_lines :=
      List.filter (fun line => 3 <? len line) (map strip lines) in
    let cleaned_text := join nl cleaned_lines in
    if len cleaned_text <? 100 then EmptyString else cleaned_text.

(** [d[k] = v] on a dict kept in insertion order: a present key keeps its
    place. *)
Fixpoint dict_set {V : Type} (d : list (string * V)) (k : string) (v : V)
    : list (string * V) :=
  match d with
  | [] => [(k, v)]
  | (k', v') :: d' =>
      if String.eqb k' k then (k', v) :: d' else (k', v') :: dict_set d' k v
  end.

Section Documents.
(** The PDF library and the file system are external: [page_texts path] is
    the text of each page of the document, [None] when opening or reading
    it raises; [path_name path] is [Path(path).name]. *)
Variable page_texts : string -> option (list string).
Variable path_name : string -> string.

(** [extract_text] *)
Definition extract_text (pdf_path : string) : list string :=
  match page_texts pdf_path with
  | None => []
  | Some pages =>
      List.filter truthy (map clean_text (firstn max_pages_per_pdf pages))
  end.

(** [extract_all] *)
Definition extract_all (pdf_files : list string) : list (string * list string) :=
  fold_left
    (fun extracted_texts pdf_file =>
       dict_set extracted_texts (path_name pdf_file) (extract_text pdf_file))
    pdf_files [].
End Documents.

End PDFExtractor.

(** ** [output_formatter.py] *)

Module OutputFormatter.
Import PyStr.

(** An entry of ['extracted_sections']. *)
Record extracted_section : Type := {
  document : string;
  section_title : string;
  importance_rank : nat;
  page_number : nat
}.

(** An entry of ['subsection_analysis']; its keys are ['document'],
    ['refined_text'] and ['page_number']. *)
Record analysed_subsection : Type := {
  analysis_document : string;
  refined_text : string;
  analysis_page_number : nat
}.

(** ['metadata']; ['processing_time_seconds'] is absent until the caller
    sets it. *)
Record metadata_t : Type := {
  input_documents : list string;
  persona : string;
  job_to_be_done : string;
  processing_time_seconds : option Q
}.

Record output : Type := {
  metadata : metadata_t;
  extracted_sections : list extracted_section;
  subsection_analysis : list analysed_subsection
}.

(** [pdf_file.split('/')[-1]] *)
Definition doc_name (pdf_file : string) : string :=
  List.last (split_char "/" pdf_file) EmptyString.

(** [format_output] *)
Definition format_output (pdf_files : list string) (persona job_to_be_done : string)
    (ranked_sections : list SectionRanker.section_data)
    (subsection_summaries : list SubsectionAnalyzer.summary_data) : output :=
  let doc_names := map doc_name pdf_files in
  let extracted_sections :=
    map (fun section =>
           {| document := SectionRanker.document section;
              section_title := SectionRanker.section_title section;
              importance_rank := SectionRanker.importance_rank section;
              page_number := SectionRanker.page_number section |})
        ranked_sections in
  let subsection_analysis :=
    map (fun summary =>
           {| analysis_document := SubsectionAnalyzer.document summary;
              refined_text := SubsectionAnalyzer.refined_text summary;
              analysis_page_number := SubsectionAnalyzer.page_number summary |})
        subsection_summaries in
  {| metadata :=
       {| input_documents := doc_names;
          persona := persona;
          job_to_be_done := job_to_be_done;
          processing_time_seconds := None |};
     extracted_sections := extracted_sections;
     subsection_analysis := subsection_analysis |}.

End OutputFormatter.

(** ** [main.py] *)

Module DocumentIntelligenceSystem.
Import PyStr PyFloat KeywordAnalyzer.

(** [round(q, 2)] *)
Definition round2 (q : Q) : Q := (round_half_even (q * 100) # 100)%Q.

(** [result["metadata"]["processing_time_seconds"] = t] *)
Definition set_processing_time (t : Q) (result : OutputFormatter.output)
    : OutputFormatter.output :=
  let m := OutputFormatter.metadata result in
  {| OutputFormatter.metadata :=
       {| OutputFormatter.input_documents := OutputFormatter.input_documents m;
          OutputFormatter.persona := OutputFormatter.persona m;
          OutputFormatter.job_to_be_done := OutputFormatter.job_to_be_done m;
          OutputFormatter.processing_time_seconds := Some t |};
     OutputFormatter.extracted_sections := OutputFormatter.extracted_sections result;
     OutputFormatter.subsection_analysis := OutputFormatter.subsection_analysis result |}.

Section System.
(** The collaborators of the components, and the time the run took
    ([time.time() - start_time]). *)
Variable page_texts : string -> option (list string).
Variable path_name : string -> string.
Variable stopwords_english : option (list string).
Variable word_tokenize : string -> option (list string).
Variable pos_tag : list string -> option (list (string * string)).
Variable list_set : list string -> list string.
Variable processing_time : Q.

(** [process_documents] *)
Definition process_documents (pdf_files : list string)
    (persona job_to_be_done : string) : OutputFormatter.output :=
  let extracted_texts := PDFExtractor.extract_all page_texts path_name pdf_files in
  let keywords :=
    extract_keywords stopwords_english word_tokenize pos_tag list_set
      persona job_to_be_done in
  let ranked_sections := SectionRanker.rank_sections extracted_texts keywords in
  let subsection_summaries :=
    SubsectionAnalyzer.analyze_subsections (firstn 10 ranked_sections) keywords in
  let result :=
    OutputFormatter.format_output pdf_files persona job_to_be_done
      (firstn 10 ranked_sections) subsection_summaries in
  set_processing_time (round2 processing_time) result.
End System.

End DocumentIntelligenceSystem.

(** ** Concrete documents *)

Module PipelineExamples.
Import PyStr Re PDFExtractor Examples.

(** The text of a page as a PDF library may give it: indented lines, a
    short line and a blank line. *)
Definition raw_page : string :=
  "  Introduction to neural networks  " +:+ nl +:+ "ab" +:+ nl +:+ nl
  +:+ repeat_char 120 "x" +:+ "  ".

(** A reader that finds one page, [raw_page], in every document. *)
Definition one_page (pdf_path : string) : option (list string) := Some [raw_page].

(** A page of two lines. *)
Definition two_lines : string := "First line" +:+ nl +:+ "second line".

(** A text of four different sentences and a short fragment. *)
Definition four_sentences_text : string :=
  cats_sentence +:+ ". " +:+ discovery_sentence +:+ "! " +:+ another_sentence
  +:+ "? The last sentence is about dogs and birds. Done.".

End PipelineExamples.

(** * Properties *)

(** ** Lists: positions and order of occurrence *)

Lemma occurs_before_lookup {A : Type} (l : list A) (i j : nat) (a b : A) :
  l !! i = Some a -> l !! j = Some b -> i < j -> occurs_before l a b.
Proof.
  intros Hi Hj Hlt.
  exists (take i l), (take (j - S i) (drop (S i) l)), (drop (S (j - S i)) (drop (S i) l)).
  assert (Hb : drop (S i) l !! (j - S i) = Some b).
  { rewrite lookup_drop. replace (S i + (j - S i)) with j by lia. exact Hj. }
  rewrite (take_drop_middle _ _ _ Hb).
  symmetry. apply take_drop_middle. exact Hi.
Qed.

Lemma lookup_occurs_before {A : Type} (l : list A) (a b : A) :
  occurs_before l a b ->
  exists i j, i < j /\ l !! i = Some a /\ l !! j = Some b.
Proof.
  intros (l1 & l2 & l3 & ->).
  exists (length l1), (length l1 + S (length l2)). split; [lia|]. split.
  - rewrite lookup_app_r by lia. now rewrite Nat.sub_diag.
  - rewrite lookup_app_r by lia.
    replace (length l1 + S (length l2) - length l1) with (S (length l2)) by lia.
    simpl. rewrite lookup_app_r by lia. now rewrite Nat.sub_diag.
Qed.

Lemma occurs_before_app_inv {A : Type} (u v : list A) (a b : A) :
  occurs_before (u ++ v) a b ->
  occurs_before u a b \/ (In a u /\ In b v) \/ occurs_before v a b.
Proof.
  revert v. induction u as [|x u IH]; intros v H.
  - right. right. exact H.
  - destruct H as (l1 & l2 & l3 & H). destruct l1 as [|y l1]; simpl in H.
    + injection H as -> H.
      assert (Hb : In b (u ++ v)) by (rewrite H; apply in_or_app; right; now left).
      apply in_app_or in Hb. destruct Hb as [Hb | Hb].
      * left. apply in_split in Hb. destruct Hb as (m1 & m2 & ->).
        exists [], m1, m2. reflexivity.
      * right. left. split; [now left | exact Hb].
    + injection H as -> H.
      destruct (IH v) as [H1 | [[H1 H2] | H1]].
      * exists l1, l2, l3. exact H.
      * left. destruct H1 as (m1 & m2 & m3 & ->). exists (y :: m1), m2, m3. reflexivity.
      * right. left. split; [now right | exact H2].
      * right. right. exact H1.
Qed.

Lemma occurs_before_flat_map {A B : Type} (f : A -> list B) (l : list A) (a b : B) :
  occurs_before (flat_map f l) a b ->
  (exists x, In x l /\ occurs_before (f x) a b) \/
  (exists x y, occurs_before l x y /\ In a (f x) /\ In b (f y)).
Proof.
  induction l as [|x l IH]; simpl; intros H.
  - destruct H as (l1 & l2 & l3 & H). destruct l1; discriminate.
  - apply occurs_before_app_inv in H. destruct H as [H | [[Ha Hb] | H]].
    + left. exists x. split; [now left | exact H].
    + right. apply in_flat_map in Hb. destruct Hb as (y & Hy & Hb).
      apply in_split in Hy. destruct Hy as (m1 & m2 & ->).
      exists x, y. split; [|now split]. exists [], m1, m2. reflexivity.
    + destruct (IH H) as [(z & Hz & Hab) | (z & y & Hzy & Ha & Hb)].
      * left. exists z. split; [now right | exact Hab].
      * right. exists z, y. split; [|now split].
        destruct Hzy as (m1 & m2 & m3 & ->). exists (x :: m1), m2, m3. reflexivity.
Qed.

Lemma occurs_before_singleton {A : Type} (x a b : A) : ~ occurs_before [x] a b.
Proof.
  intros (l1 & l2 & l3 & H). destruct l1 as [|? [|? ?]]; try discriminate.
  injection H as _ H. destruct l2; discriminate.
Qed.

Lemma occurs_before_nil {A : Type} (a b : A) : ~ occurs_before [] a b.
Proof. intros (l1 & l2 & l3 & H). destruct l1; discriminate. Qed.

Lemma occurs_before_In {A : Type} (l : list A) (a b : A) :
  occurs_before l a b -> In a l /\ In b l.
Proof.
  intros (l1 & l2 & l3 & ->). split; apply in_or_app; right.
  - now left.
  - right. apply in_or_app. right. now left.
Qed.

Lemma filter_split {A : Type} (p : A -> bool) (l u v : list A) (a : A) :
  List.filter p l = u ++ a :: v ->
  exists l1 l2, l = l1 ++ a :: l2 /\ List.filter p l1 = u /\ List.filter p l2 = v.
Proof.
  revert u. induction l as [|x l IH]; simpl; intros u H.
  - destruct u; discriminate.
  - destruct (p x) eqn:Hx.
    + destruct u as [|y u]; simpl in H.
      * injection H as -> H. exists [], l. auto.
      * injection H as -> H. destruct (IH _ H) as (l1 & l2 & -> & H1 & H2).
        exists (y :: l1), l2. simpl. rewrite Hx, H1. auto.
    + destruct (IH _ H) as (l1 & l2 & -> & H1 & H2).
      exists (x :: l1), l2. simpl. rewrite Hx. auto.
Qed.

Lemma enumerate_length {A : Type} (n : nat) (l : list A) :
  length (enumerate n l) = length l.
Proof. revert n. induction l; simpl; intros; [reflexivity | now rewrite IHl]. Qed.

Lemma enumerate_fst {A : Type} (n : nat) (l : list A) :
  map fst (enumerate n l) = seq n (length l).
Proof. revert n. induction l; simpl; intros; [reflexivity | now rewrite IHl]. Qed.

Lemma enumerate_snd {A : Type} (n : nat) (l : list A) :
  map snd (enumerate n l) = l.
Proof. revert n. induction l; simpl; intros; [reflexivity | now rewrite IHl]. Qed.

Lemma enumerate_In_ge {A : Type} (n i : nat) (x : A) (l : list A) :
  In (i, x) (enumerate n l) -> n <= i.
Proof.
  revert n. induction l as [|y l IH]; simpl; intros n H; [contradiction|].
  destruct H as [H | H]; [injection H; lia | apply IH in H; lia].
Qed.

Lemma enumerate_occurs_before {A : Type} (n i j : nat) (x y : A) (l : list A) :
  occurs_before (enumerate n l) (i, x) (j, y) -> i < j.
Proof.
  revert n. induction l as [|z l IH]; simpl; intros n H.
  - now apply occurs_before_nil in H.
  - change ((n, z) :: enumerate (S n) l) with ([(n, z)] ++ enumerate (S n) l) in H.
    apply occurs_before_app_inv in H. destruct H as [H | [[Ha Hb] | H]].
    + now apply occurs_before_singleton in H.
    + destruct Ha as [Ha | []]. injection Ha as -> _.
      apply enumerate_In_ge in Hb. lia.
    + eapply IH, H.
Qed.

(** ** The stable descending sort *)

Section StableSortFacts.
Context {A : Type}.
Variable lt : A -> A -> bool.
Hypothesis lt_asym : forall x y, lt x y = true -> lt y x = false.
Hypothesis lt_negtrans :
  forall x y z, lt x y = false -> lt y z = false -> lt x z = false.

Lemma lt_irrefl (x : A) : lt x x = false.
Proof.
  destruct (lt x x) eqn:H; [|reflexivity].
  pose proof (lt_asym _ _ H). congruence.
Qed.

Lemma same_key_refl (x : A) : same_key lt x x = true.
Proof. unfold same_key. now rewrite lt_irrefl. Qed.

Lemma insert_desc_perm (x : A) (l : list A) :
  Permutation (insert_desc lt x l) (x :: l).
Proof.
  induction l as [|y l IH]; simpl; [reflexivity|].
  destruct (lt x y); [|reflexivity].
  rewrite IH. apply perm_swap.
Qed.

Lemma sort_desc_perm (l : list A) : Permutation (sort_desc lt l) l.
Proof.
  induction l as [|x l IH]; simpl; [reflexivity|].
  rewrite insert_desc_perm. now constructor.
Qed.

Lemma sort_desc_length (l : list A) : length (sort_desc lt l) = length l.
Proof. apply Permutation_length, sort_desc_perm. Qed.

Lemma insert_desc_sorted (x : A) (l : list A) :
  StronglySorted (fun a b => lt a b = false) l ->
  StronglySorted (fun a b => lt a b = false) (insert_desc lt x l).
Proof.
  induction 1 as [|y l Hs IH Hy]; simpl.
  - repeat constructor.
  - destruct (lt x y) eqn:Hxy.
    + constructor; [exact IH|].
      apply (Permutation_Forall (x := x :: l)).
      * symmetry. apply insert_desc_perm.
      * constructor; [now apply lt_asym | exact Hy].
    + constructor; [now constructor|].
      constructor; [exact Hxy|].
      eapply Forall_impl; [exact Hy|]. intros z Hz. eapply lt_negtrans; eassumption.
Qed.

Lemma sort_desc_sorted (l : list A) :
  StronglySorted (fun a b => lt a b = false) (sort_desc lt l).
Proof.
  induction l as [|x l IH]; simpl; [constructor | now apply insert_desc_sorted].
Qed.

Lemma insert_desc_filter (a x : A) (l : list A) :
  List.filter (same_key lt a) (insert_desc lt x l)
  = List.filter (same_key lt a) (x :: l).
Proof.
  induction l as [|y l IH]; [reflexivity|].
  cbn [insert_desc]. destruct (lt x y) eqn:Hxy; [|reflexivity].
  cbn [List.filter] in *. rewrite IH.
  destruct (same_key lt a x) eqn:Hax, (same_key lt a y) eqn:Hay; try reflexivity.
  unfold same_key in Hax, Hay.
  apply andb_prop in Hax, Hay. destruct Hax as [_ Hxa], Hay as [Hay _].
  apply negb_true_iff in Hxa, Hay.
  rewrite (lt_negtrans _ _ _ Hxa Hay) in Hxy. discriminate.
Qed.

(** Stability: the elements of any one key keep their order. *)
Lemma sort_desc_filter (a : A) (l : list A) :
  List.filter (same_key lt a) (sort_desc lt l) = List.filter (same_key lt a) l.
Proof.
  induction l as [|x l IH]; [reflexivity|].
  cbn [sort_desc]. rewrite insert_desc_filter. cbn [List.filter]. now rewrite IH.
Qed.

Lemma sort_desc_stable (l : list A) (a b : A) :
  occurs_before (sort_desc lt l) a b -> same_key lt a b = true ->
  occurs_before l a b.
Proof.
  intros (l1 & l2 & l3 & Hl) Hab.
  pose proof (sort_desc_filter a l) as Hf. rewrite Hl in Hf.
  rewrite List.filter_app in Hf. cbn [List.filter] in Hf.
  rewrite same_key_refl, List.filter_app in Hf. cbn [List.filter] in Hf.
  rewrite Hab in Hf. symmetry in Hf.
  apply filter_split in Hf. destruct Hf as (m1 & m2 & -> & _ & Hf).
  apply filter_split in Hf. destruct Hf as (n1 & n2 & -> & _ & _).
  exists m1, n1, n2. reflexivity.
Qed.

Lemma sort_desc_ordered (l : list A) (a b : A) :
  occurs_before (sort_desc lt l) a b -> lt a b = false.
Proof.
  intros (l1 & l2 & l3 & Hl).
  pose proof (sort_desc_sorted l) as Hs. rewrite Hl in Hs.
  apply StronglySorted_app_1_r in Hs.
  apply StronglySorted_inv in Hs. destruct Hs as [_ Hs].
  rewrite List.Forall_forall in Hs. apply Hs. apply in_or_app. right. now left.
Qed.
End StableSortFacts.

(** ** Floats as keys *)

Import PyStr Re PyFloat.

Lemma Qltb_false (x y : Q) : Qltb x y = false <-> (y <= x)%Q.
Proof.
  unfold Qltb. rewrite negb_false_iff. apply Qle_bool_iff.
Qed.

Lemma Qltb_asym (x y : Q) : Qltb x y = true -> Qltb y x = false.
Proof.
  intros H. apply Qltb_false. apply Qlt_le_weak, Qnot_le_lt.
  intros Hle. apply Qltb_false in Hle. congruence.
Qed.

Lemma Qltb_negtrans (x y z : Q) :
  Qltb x y = false -> Qltb y z = false -> Qltb x z = false.
Proof.
  rewrite !Qltb_false. intros H1 H2. eapply Qle_trans; eassumption.
Qed.

(** ** Section ranking *)

Import KeywordAnalyzer SectionRanker.

Lemma score_lt_asym (a b : section_data) : score_lt a b = true -> score_lt b a = false.
Proof. apply Qltb_asym. Qed.

Lemma score_lt_negtrans (a b c : section_data) :
  score_lt a b = false -> score_lt b c = false -> score_lt a c = false.
Proof. apply Qltb_negtrans. Qed.

Lemma score_same_key (a b : section_data) :
  (relevance_score a == relevance_score b)%Q -> same_key score_lt a b = true.
Proof.
  intros H. unfold same_key, score_lt.
  apply andb_true_intro.
  split; apply negb_true_iff, Qltb_false; rewrite H; apply Qle_refl.
Qed.

Lemma assign_ranks_from_lookup (n i : nat) (l : list section_data) (a : section_data) :
  map (fun '(rank, s) => set_importance_rank rank s) (enumerate n l) !! i = Some a ->
  exists a0, l !! i = Some a0 /\ a = set_importance_rank (n + i) a0.
Proof.
  revert n i. induction l as [|x l IH]; intros n i H; [discriminate|].
  destruct i as [|i]; simpl in H.
  - injection H as <-. exists x. rewrite Nat.add_0_r. auto.
  - apply IH in H. destruct H as (a0 & H1 & ->). exists a0.
    split; [exact H1 | f_equal; lia].
Qed.

Lemma assign_ranks_lookup (i : nat) (l : list section_data) (a : section_data) :
  assign_ranks l !! i = Some a ->
  exists a0, l !! i = Some a0 /\ a = set_importance_rank (S i) a0.
Proof. apply assign_ranks_from_lookup. Qed.

Lemma assign_ranks_ranks (l : list section_data) :
  map importance_rank (assign_ranks l) = seq 1 (length l).
Proof.
  unfold assign_ranks. rewrite <- (enumerate_fst 1 l), map_map.
  apply map_ext. now intros [rank s].
Qed.

Lemma assign_ranks_length (l : list section_data) :
  length (assign_ranks l) = length l.
Proof. unfold assign_ranks. now rewrite length_map, enumerate_length. Qed.

Lemma kept_sections_length (n : nat) (sections : list string)
    (f : nat * string -> list section_data) :
  (forall idx text,
     length (f (idx, text)) = if len text <? min_section_length then 0 else 1) ->
  length (flat_map f (enumerate n sections))
  = length (List.filter (fun text => min_section_length <=? len text) sections).
Proof.
  intros Hf. revert n.
  induction sections as [|text sections IH]; intros n; [reflexivity|].
  cbn [enumerate flat_map List.filter]. rewrite length_app, IH, Hf.
  destruct (Nat.ltb_spec (len text) min_section_length) as [Hlt | Hge].
  - apply Nat.leb_gt in Hlt. now rewrite Hlt.
  - apply Nat.leb_le in Hge. now rewrite Hge.
Qed.

Lemma collect_sections_length (extracted_texts : list (string * list string))
    (kw : keywords) :
  length (collect_sections extracted_texts kw)
  = length (qualifying_sections extracted_texts).
Proof.
  unfold collect_sections, qualifying_sections.
  induction extracted_texts as [|[filename pages] texts IH]; [reflexivity|].
  cbn [flat_map]. rewrite !length_app, IH. f_equal.
  generalize 1. induction pages as [|page pages IHp]; intros n; [reflexivity|].
  cbn [enumerate flat_map]. rewrite !length_app, IHp. f_equal.
  unfold page_sections. apply kept_sections_length.
  intros idx text. now destruct (len text <? min_section_length).
Qed.

(** C1: the importance ranks of the ranked list are 1, 2, ..., N in this
    order, where N is both the length of the list and the number of sections
    of at least 100 characters found in the documents. *)
Theorem rank_sections_importance_ranks
    (extracted_texts : list (string * list string)) (kw : keywords) :
  map importance_rank (rank_sections extracted_texts kw)
  = seq 1 (length (rank_sections extracted_texts kw))
  /\ length (rank_sections extracted_texts kw)
     = length (qualifying_sections extracted_texts).
Proof.
  unfold rank_sections. rewrite assign_ranks_ranks, assign_ranks_length.
  split; [reflexivity|].
  rewrite sort_desc_length. apply collect_sections_length.
Qed.

Lemma page_sections_In (kw : keywords) (filename : string) (page_num : nat)
    (page_text : string) (a : section_data) :
  In a (page_sections kw filename (page_num, page_text)) ->
  document a = filename /\ page_number a = page_num.
Proof.
  unfold page_sections. rewrite in_flat_map.
  intros ([idx text] & _ & H).
  destruct (len text <? min_section_length); [contradiction|].
  destruct H as [<- | []]. auto.
Qed.

Lemma page_sections_order (kw : keywords) (filename : string) (page_num : nat)
    (page_text : string) (a b : section_data) :
  occurs_before (page_sections kw filename (page_num, page_text)) a b ->
  section_index a < section_index b.
Proof.
  unfold page_sections. intros H. apply occurs_before_flat_map in H.
  destruct H as [([idx text] & _ & H) | ([ia ta] & [ib tb] & Hord & Ha & Hb)].
  - destruct (len text <? min_section_length).
    + now apply occurs_before_nil in H.
    + now apply occurs_before_singleton in H.
  - apply enumerate_occurs_before in Hord.
    destruct (len ta <? min_section_length); [contradiction|].
    destruct (len tb <? min_section_length); [contradiction|].
    destruct Ha as [<- | []], Hb as [<- | []]. exact Hord.
Qed.

Lemma document_sections_In (kw : keywords) (filename : string) (n : nat)
    (pages : list string) (a : section_data) :
  In a (flat_map (page_sections kw filename) (enumerate n pages)) ->
  document a = filename.
Proof.
  rewrite in_flat_map. intros ([page_num page_text] & _ & H).
  now apply page_sections_In in H.
Qed.

Lemma document_sections_order (kw : keywords) (filename : string) (n : nat)
    (pages : list string) (a b : section_data) :
  occurs_before (flat_map (page_sections kw filename) (enumerate n pages)) a b ->
  page_number a < page_number b
  \/ (page_number a = page_number b /\ section_index a < section_index b).
Proof.
  intros H. apply occurs_before_flat_map in H.
  destruct H as [([p t] & _ & H) | ([pa ta] & [pb tb] & Hord & Ha & Hb)].
  - right. split; [|eapply page_sections_order, H].
    apply occurs_before_In in H. destruct H as [Ha Hb].
    apply page_sections_In in Ha, Hb. destruct Ha as [_ ->], Hb as [_ ->]. reflexivity.
  - left. apply enumerate_occurs_before in Hord.
    apply page_sections_In in Ha, Hb. destruct Ha as [_ ->], Hb as [_ ->]. exact Hord.
Qed.

(** The list that is sorted is in discovery order. *)
Lemma collect_sections_order (extracted_texts : list (string * list string))
    (kw : keywords) (a b : section_data) :
  occurs_before (collect_sections extracted_texts kw) a b ->
  discovered_before extracted_texts a b.
Proof.
  unfold collect_sections. intros H. apply occurs_before_flat_map in H.
  destruct H as [([filename pages] & Hin & H) | ([fa pa] & [fb pb] & Hord & Ha & Hb)].
  - apply list_elem_of_In, list_elem_of_lookup in Hin. destruct Hin as [i Hi].
    destruct (occurs_before_In _ _ _ H) as [Hda Hdb].
    apply document_sections_In in Hda, Hdb.
    exists i, i, pages, pages. rewrite Hda, Hdb. repeat split; try exact Hi.
    right. split; [reflexivity|]. eapply document_sections_order, H.
  - apply lookup_occurs_before in Hord. destruct Hord as (i & j & Hlt & Hi & Hj).
    apply document_sections_In in Ha, Hb. subst fa fb.
    exists i, j, pa, pb. repeat split; try assumption. now left.
Qed.

(** C2: in the ranked list a section never has a larger score than one
    before it, and of two sections with equal scores the one found first
    (earlier document, then earlier page, then smaller section index) comes
    first. *)
Theorem rank_sections_sorted_stable
    (extracted_texts : list (string * list string)) (kw : keywords)
    (i j : nat) (a b : section_data) :
  rank_sections extracted_texts kw !! i = Some a ->
  rank_sections extracted_texts kw !! j = Some b ->
  i < j ->
  (relevance_score b <= relevance_score a)%Q
  /\ ((relevance_score a == relevance_score b)%Q ->
      discovered_before extracted_texts a b).
Proof.
  unfold rank_sections. intros Ha Hb Hlt.
  apply assign_ranks_lookup in Ha, Hb.
  destruct Ha as (a0 & Ha & ->), Hb as (b0 & Hb & ->).
  pose proof (occurs_before_lookup _ _ _ _ _ Ha Hb Hlt) as Hord.
  split.
  - apply Qltb_false.
    exact (sort_desc_ordered score_lt score_lt_asym score_lt_negtrans _ _ _ Hord).
  - intros Heq. apply score_same_key in Heq.
    apply (sort_desc_stable score_lt score_lt_asym score_lt_negtrans) in Hord;
      [|exact Heq].
    apply collect_sections_order in Hord.
    exact Hord.
Qed.

Import Examples.

Lemma rank_sections_sorted_stable_witness :
  rank_sections ranking_texts ranking_keywords !! 1 = Some ranked_second
  /\ rank_sections ranking_texts ranking_keywords !! 2 = Some ranked_third
  /\ 1 < 2
  /\ (relevance_score ranked_third <= relevance_score ranked_second)%Q
  /\ ((relevance_score ranked_second == relevance_score ranked_third)%Q ->
      discovered_before ranking_texts ranked_second ranked_third).
Proof.
  split; [vm_compute; reflexivity|].
  split; [vm_compute; reflexivity|].
  split; [lia|].
  apply (rank_sections_sorted_stable ranking_texts ranking_keywords 1 2);
    [vm_compute; reflexivity | vm_compute; reflexivity | lia].
Defined.

(** ** Relevance score *)

Lemma truthy_len (s : string) : 0 < len s -> truthy s = true.
Proof. destruct s; simpl; [lia | reflexivity]. Qed.

Lemma startswith_shorter (p q rest : string) :
  startswith p (q +:+ rest) = true -> len q <= len p -> startswith q p = true.
Proof.
  revert p. induction q as [|c q IH]; intros p H Hlen; [reflexivity|].
  destruct p as [|d p]; cbn [len String.length] in Hlen; [lia|].
  cbn [String.append startswith] in *.
  apply andb_prop in H. destruct H as [Hc H].
  apply Ascii.eqb_eq in Hc. subst d. rewrite Ascii.eqb_refl. cbn [andb].
  apply IH; [exact H | unfold len; lia].
Qed.

Lemma startswith_app (p s : string) :
  startswith p s = true -> s = p +:+ drop (len p) s.
Proof.
  revert s. induction p as [|c p IH]; intros s H; [reflexivity|].
  destruct s as [|d s]; cbn [startswith] in H; [discriminate|].
  apply andb_prop in H. destruct H as [Hc H].
  apply Ascii.eqb_eq in Hc. subst d.
  change (String c s = String c (p +:+ drop (len p) s)). f_equal. now apply IH.
Qed.

Lemma drop_app (j : nat) (p rest : string) :
  j <= len p -> drop j (p +:+ rest) = drop j p +:+ rest.
Proof.
  revert p. induction j as [|j IH]; intros p Hj.
  - now destruct p.
  - destruct p as [|c p]; cbn [len String.length] in Hj; [lia|].
    cbn [String.append drop]. apply IH. unfold len. lia.
Qed.

Lemma len_drop (j : nat) (p : string) : len (drop j p) = len p - j.
Proof.
  revert p. induction j as [|j IH]; intros p.
  - destruct p; cbn; lia.
  - destruct p as [|c p]; [reflexivity|]. cbn [drop len String.length]. apply IH.
Qed.

(** Two occurrences of a borderless string are at least its length apart. *)
Lemma borderless_no_overlap (sub s : string) (j : nat) :
  borderless sub = true -> 0 < j < len sub ->
  startswith sub s = true -> startswith sub (drop j s) = false.
Proof.
  intros Hb Hj Hs.
  destruct (startswith sub (drop j s)) eqn:Hd; [|reflexivity].
  unfold borderless in Hb. rewrite forallb_forall in Hb.
  assert (Hin : In j (seq 1 (len sub - 1))) by (apply in_seq; lia).
  apply Hb in Hin. apply negb_true_iff in Hin.
  rewrite (startswith_app _ _ Hs), drop_app in Hd by lia.
  apply startswith_shorter in Hd; [congruence|].
  rewrite len_drop. lia.
Qed.

Lemma count_from_occurrences (sub : string) :
  borderless sub = true ->
  forall (s : string) (skip : nat),
    skip < len sub ->
    (forall i, i < skip -> startswith sub (drop i s) = false) ->
    count_from sub skip s = occurrences sub s.
Proof.
  intros Hb. induction s as [|c s IH]; intros skip Hskip Hfree; [reflexivity|].
  cbn [count_from occurrences]. destruct skip as [|skip].
  - destruct (startswith sub (String c s)) eqn:Hs.
    + cbn [Nat.add]. f_equal. apply IH; [lia|].
      intros i Hi.
      apply (borderless_no_overlap sub (String c s) (S i) Hb); [lia | exact Hs].
    + apply IH; [lia|]. intros i Hi. lia.
  - pose proof (Hfree 0 ltac:(lia)) as H0. cbn [drop] in H0. rewrite H0.
    apply IH; [lia|]. intros i Hi. apply (Hfree (S i)). lia.
Qed.

(** [s.count(sub)] is the number of positions at which [sub] occurs, when
    occurrences of [sub] cannot overlap. *)
Lemma count_occurrences (s sub : string) :
  borderless sub = true -> 0 < len sub -> count s sub = occurrences sub s.
Proof.
  intros Hb Hlen. unfold count.
  destruct sub as [|c sub]; [cbn in Hlen; lia|].
  apply count_from_occurrences; [exact Hb | exact Hlen | intros i Hi; lia].
Qed.

(** The divisor of the normalisation is not zero on a non-empty text, so
    the division never fails. *)
Lemma relevance_divisor_nonzero (section_text : string) :
  truthy section_text = true ->
  ~ (inject_Z (Z.of_nat (len section_text)) / 1000 == 0)%Q.
Proof.
  destruct section_text as [|c s]; [discriminate|]. intros _ H.
  unfold Qeq, Qdiv, Qmult, Qinv, inject_Z in H.
  cbn [Qnum Qden len String.length] in H. lia.
Qed.

(** C3: a section of 2000 characters whose lower-cased text contains
    "drug discovery" twice and "neural" once, scored against these two
    keywords with weights 3 and 1: the total before normalisation is
    2*3*14 + 1*1*6, the divisor is 2000/1000, and the score is 45.0. *)
Theorem relevance_score_drug_discovery (section_text : string) :
  len section_text = 2000 ->
  occurrences "drug discovery" (lower section_text) = 2 ->
  occurrences "neural" (lower section_text) = 1 ->
  (score_total section_text drug_keywords drug_weights
     == inject_Z (2 * 3 * 14 + 1 * 1 * 6))%Q
  /\ (calculate_relevance_score section_text drug_keywords drug_weights
        == inject_Z (2 * 3 * 14 + 1 * 1 * 6) / (inject_Z 2000 / 1000))%Q
  /\ (calculate_relevance_score section_text drug_keywords drug_weights == 45)%Q.
Proof.
  intros Hlen Hdrug Hneural.
  rewrite <- count_occurrences in Hdrug, Hneural
    by (vm_compute; first [reflexivity | lia]).
  assert (Htotal : score_total section_text drug_keywords drug_weights
                   = (0 + inject_Z (2 * 3 * 14) + inject_Z (1 * 1 * 6))%Q).
  { unfold score_total, drug_keywords. cbn [fold_left]. unfold score_step.
    change (lower "drug discovery") with "drug discovery".
    change (lower "neural") with "neural".
    rewrite Hdrug, Hneural. reflexivity. }
  unfold calculate_relevance_score.
  rewrite truthy_len by (rewrite Hlen; lia).
  cbn [negb orb drug_keywords]. fold drug_keywords.
  rewrite Htotal, Hlen.
  repeat split; vm_compute; reflexivity.
Qed.

Lemma relevance_score_drug_discovery_witness :
  len section_2000 = 2000
  /\ occurrences "drug discovery" (lower section_2000) = 2
  /\ occurrences "neural" (lower section_2000) = 1
  /\ (calculate_relevance_score section_2000 drug_keywords drug_weights == 45)%Q.
Proof.
  split; [vm_compute; reflexivity|].
  split; [vm_compute; reflexivity|].
  split; [vm_compute; reflexivity|].
  apply (relevance_score_drug_discovery section_2000); vm_compute; reflexivity.
Defined.

Lemma score_loop_proper (text_lower : string) (weights : gmap string Z)
    (keywords : list string) (a b : Q) :
  (a == b)%Q ->
  (fold_left (score_step text_lower weights) keywords a
   == fold_left (score_step text_lower weights) keywords b)%Q.
Proof.
  revert a b. induction keywords as [|k keywords IH]; intros a b Hab; [exact Hab|].
  cbn [fold_left]. apply IH. unfold score_step.
  destruct (0 <? count text_lower (lower k)); [now rewrite Hab | exact Hab].
Qed.

(** What is added to the running total before the remaining keywords are
    read is still in the total at the end. *)
Lemma score_loop_shift (text_lower : string) (weights : gmap string Z)
    (keywords : list string) (a c : Q) :
  (fold_left (score_step text_lower weights) keywords (a + c)
   == fold_left (score_step text_lower weights) keywords a + c)%Q.
Proof.
  revert a. induction keywords as [|k keywords IH]; intros a; [reflexivity|].
  cbn [fold_left]. unfold score_step at 2 4.
  destruct (0 <? count text_lower (lower k)); [|apply IH].
  rewrite <- IH. apply score_loop_proper. ring.
Qed.

Lemma round_half_even_comp (a b : Q) :
  (a == b)%Q -> round_half_even a = round_half_even b.
Proof.
  intros Hab. unfold round_half_even.
  assert (Hfloor : Qfloor a = Qfloor b) by now rewrite Hab.
  rewrite Hfloor.
  assert (Hcmp : (a - inject_Z (Qfloor b) ?= 1 # 2)%Q
                 = (b - inject_Z (Qfloor b) ?= 1 # 2)%Q) by now rewrite Hab.
  now rewrite Hcmp.
Qed.

Lemma round3_comp (a b : Q) : (a == b)%Q -> round3 a = round3 b.
Proof.
  intros Hab. unfold round3. f_equal. apply round_half_even_comp. now rewrite Hab.
Qed.

(** C10: a keyword of the list without an entry in the weights counts with
    weight 1.  Wherever it stands in the keyword list, it adds
    [count * 1 * len(keyword)] to the total before normalisation, so the
    total is larger than without it when it occurs; the score is the
    rounded quotient of this total; and the score is the one obtained with
    the entry [keyword -> 1] added to the weights. *)
Theorem missing_weight_defaults_to_one (section_text : string)
    (before after : list string) (weights : gmap string Z) (keyword : string) :
  weights !! keyword = None ->
  let n := count (lower section_text) (lower keyword) in
  let contribution := inject_Z (Z.of_nat n * 1 * Z.of_nat (len keyword)) in
  let keywords := before ++ keyword :: after in
  (score_total section_text keywords weights
   == score_total section_text (before ++ after) weights + contribution)%Q
  /\ (0 < n -> 0 < len keyword ->
      (score_total section_text (before ++ after) weights
       < score_total section_text keywords weights)%Q)
  /\ (truthy section_text = true ->
      calculate_relevance_score section_text keywords weights
      = round3 ((score_total section_text (before ++ after) weights + contribution)
                / (inject_Z (Z.of_nat (len section_text)) / 1000)))
  /\ (forall (text_lower : string) (score : Q),
        0 < count text_lower (lower keyword) ->
        score_step text_lower weights score keyword
        = (score + inject_Z (Z.of_nat (count text_lower (lower keyword)) * 1
                             * Z.of_nat (len keyword)))%Q)
  /\ score_total section_text keywords weights
     = score_total section_text keywords (<[keyword := 1%Z]> weights)
  /\ calculate_relevance_score section_text keywords weights
     = calculate_relevance_score section_text keywords (<[keyword := 1%Z]> weights).
Proof.
  intros Hnone n contribution keywords.
  assert (Hstep : forall text_lower score k,
            score_step text_lower weights score k
            = score_step text_lower (<[keyword := 1%Z]> weights) score k).
  { intros text_lower score k. unfold score_step.
    destruct (decide (keyword = k)) as [<- | Hne].
    - now rewrite lookup_insert_eq, Hnone.
    - now rewrite lookup_insert_ne. }
  assert (Htotal : score_total section_text keywords weights
                   = score_total section_text keywords (<[keyword := 1%Z]> weights)).
  { unfold score_total. generalize 0%Q.
    induction keywords as [|k l IH]; intros score; [reflexivity|].
    cbn [fold_left]. rewrite Hstep. apply IH. }
  assert (Hadd : (score_total section_text keywords weights
                  == score_total section_text (before ++ after) weights
                     + contribution)%Q).
  { unfold score_total, keywords. rewrite !fold_left_app. cbn [fold_left].
    set (a := fold_left (score_step (lower section_text) weights) before 0%Q).
    unfold score_step at 2. fold n. rewrite Hnone. cbn [default].
    fold contribution.
    destruct (Nat.ltb_spec 0 n) as [Hpos | Hzero]; [apply score_loop_shift|].
    assert (Hc : contribution = inject_Z 0).
    { unfold contribution. replace n with 0 by lia. reflexivity. }
    rewrite Hc. unfold inject_Z. now rewrite Qplus_0_r. }
  split; [exact Hadd|]. split; [|split; [|split; [|split]]].
  - intros Hn Hlen. rewrite Hadd.
    rewrite <- (Qplus_0_r (score_total section_text (before ++ after) weights)) at 1.
    apply Qplus_lt_r. unfold contribution.
    change 0%Q with (inject_Z 0). rewrite <- Zlt_Qlt. nia.
  - intros Htruthy. unfold calculate_relevance_score. rewrite Htruthy.
    assert (Hne : match keywords with [] => true | _ :: _ => false end = false)
      by (unfold keywords; now destruct before).
    rewrite Hne. cbn [negb orb]. apply round3_comp. now rewrite Hadd.
  - intros text_lower score Hcount. unfold score_step.
    apply Nat.ltb_lt in Hcount. now rewrite Hcount, Hnone.
  - exact Htotal.
  - unfold calculate_relevance_score. now rewrite Htotal.
Qed.

Lemma missing_weight_defaults_to_one_witness :
  drug_weights !! "nets" = None
  /\ count (lower section_2000) (lower "nets") = 1
  /\ (score_total section_2000 ["neural"; "nets"; "drug discovery"] drug_weights
      == score_total section_2000 ["neural"; "drug discovery"] drug_weights
         + inject_Z (1 * 1 * 4))%Q
  /\ (score_total section_2000 ["neural"; "drug discovery"] drug_weights
      < score_total section_2000 ["neural"; "nets"; "drug discovery"] drug_weights)%Q.
Proof.
  assert (Hnone : drug_weights !! "nets" = None) by (vm_compute; reflexivity).
  split; [exact Hnone|]. split; [vm_compute; reflexivity|].
  destruct (missing_weight_defaults_to_one section_2000 ["neural"] ["drug discovery"]
              drug_weights "nets" Hnone) as (Hadd & Hmore & _).
  split; [exact Hadd|]. apply Hmore; vm_compute; lia.
Defined.

(** ** Keyword extraction on empty input *)

(** C8: with an empty persona and an empty task the keyword weights and the
    ranked keyword list are empty, whatever the linguistic collaborators do,
    and with them every section text scores 0.0. *)
Theorem empty_persona_and_task
    (stopwords_english : option (list string))
    (word_tokenize : string -> option (list string))
    (pos_tag : list string -> option (list (string * string)))
    (list_set : list string -> list string) :
  let kw := extract_keywords stopwords_english word_tokenize pos_tag list_set
              EmptyString EmptyString in
  keyword_weights kw = ∅
  /\ combined_keywords kw = []
  /\ forall section_text : string,
       calculate_relevance_score section_text (combined_keywords kw)
         (keyword_weights kw) = 0%Q.
Proof.
  cbn. split; [reflexivity|]. split; [reflexivity|].
  intros section_text. unfold calculate_relevance_score.
  now rewrite orb_true_r.
Qed.

(** ** Extractive summary *)

Import SubsectionAnalyzer.

(** C5: a text with at most three sentences is returned as it is. *)
Theorem summary_of_short_text (text : string) (keywords : list string) :
  length (split_sentences text) <= 3 ->
  generate_extractive_summary text keywords = text.
Proof.
  intros Hshort. unfold generate_extractive_summary.
  destruct text as [|c text]; [reflexivity|].
  cbn [truthy negb]. unfold summary_sentences.
  apply Nat.leb_le in Hshort. now rewrite Hshort.
Qed.

Lemma summary_of_short_text_witness :
  length (split_sentences short_text) <= 3
  /\ generate_extractive_summary short_text ["neural"] = short_text.
Proof.
  split; [vm_compute; lia|].
  apply (summary_of_short_text short_text ["neural"]). vm_compute. lia.
Defined.

Lemma keyword_loop_sum (sentence_lower : string) (keywords : list string) (score : Q) :
  (fold_left
     (fun score keyword =>
        if keyword_present sentence_lower keyword
        then (score + inject_Z (Z.of_nat (len keyword)))%Q
        else score)
     keywords score
   == score
      + inject_Z (Z.of_nat
          (list_sum (map len (List.filter (keyword_present sentence_lower) keywords)))))%Q.
Proof.
  revert score. induction keywords as [|k keywords IH]; intros score.
  - cbn. ring.
  - cbn [fold_left List.filter]. rewrite IH.
    destruct (keyword_present sentence_lower k); [|reflexivity].
    unfold list_sum. cbn [map fold_right].
    rewrite Nat2Z.inj_add, inject_Z_plus. ring.
Qed.

(** C6, as the code has it: the sum of the lengths of the keywords present,
    with the bonus factor [1 + 0.2 * matched] when more than one keyword is
    present, is divided by [len(sentence) / 100]; an empty sentence or an
    empty keyword list scores 0.0. *)
Theorem score_sentence_normalised (sentence : string) (keywords : list string) :
  (score_sentence sentence keywords
   == if negb (truthy sentence) || match keywords with [] => true | _ => false end
      then 0
      else spec_sentence_score sentence keywords
           / (inject_Z (Z.of_nat (len sentence)) / 100))%Q.
Proof.
  unfold score_sentence, spec_sentence_score.
  destruct (negb (truthy sentence) || match keywords with [] => true | _ => false end);
    [reflexivity|].
  cbv zeta.
  destruct (1 <? length (List.filter (keyword_present (lower sentence)) keywords));
    now rewrite keyword_loop_sum, Qplus_0_l.
Qed.

(** C6 as stated fails: the sentence "neural nets are here ok!!" has 25
    characters and contains the keyword "neural", so the sum of lengths is 6,
    but its score is 6 / (25 / 100) = 24. *)
Lemma score_sentence_not_unnormalised :
  ~ (forall (sentence : string) (keywords : list string),
       (score_sentence sentence keywords
        == spec_sentence_score sentence keywords)%Q).
Proof.
  intros H. specialize (H neural_sentence ["neural"]).
  vm_compute in H. discriminate H.
Qed.

Example score_sentence_neural :
  (score_sentence neural_sentence ["neural"] == 24)%Q
  /\ (spec_sentence_score neural_sentence ["neural"] == 6)%Q.
Proof. split; vm_compute; reflexivity. Qed.

(** ** Segmentation of blank pages *)

Lemma lstrip_blank (s : string) : all_chars isspace s = true -> lstrip s = EmptyString.
Proof.
  induction s as [|c s IH]; cbn [all_chars lstrip]; [reflexivity|].
  intros H. apply andb_prop in H. destruct H as [-> H]. now apply IH.
Qed.

Lemma strip_blank (s : string) : all_chars isspace s = true -> strip s = EmptyString.
Proof. intros H. unfold strip. now rewrite lstrip_blank. Qed.

(** The pieces of a split consist of characters of the text. *)
Lemma split_from_all_chars (p : ascii -> bool) (r : regex) (s : string) :
  all_chars p s = true ->
  forall (skip : nat) (prev : option ascii),
    Forall (fun piece => all_chars p piece = true) (split_from r skip prev s).
Proof.
  induction s as [|c s IH]; cbn [all_chars split_from]; intros H skip prev.
  - repeat constructor.
  - apply andb_prop in H. destruct H as [Hc H].
    assert (Hcons : forall l, Forall (fun piece => all_chars p piece = true) l ->
                      Forall (fun piece => all_chars p piece = true) (cons_char c l)).
    { intros l Hl. destruct Hl as [|piece l Hp Hl]; cbn [cons_char].
      - constructor; [cbn; now rewrite Hc | constructor].
      - constructor; [cbn [all_chars]; now rewrite Hc, Hp | exact Hl]. }
    destruct skip as [|skip]; [|now apply IH].
    destruct (match_len r prev (String c s)) as [[|n]|].
    + now apply Hcons, IH.
    + constructor; [reflexivity | now apply IH].
    + now apply Hcons, IH.
Qed.

Lemma paragraph_loop_blank (paragraphs : list string) (st : list string * string) :
  Forall (fun paragraph => all_chars isspace paragraph = true) paragraphs ->
  fold_left paragraph_step paragraphs st = st.
Proof.
  intros H. revert st.
  induction H as [|paragraph paragraphs Hp _ IH]; intros st; [reflexivity|].
  cbn [fold_left]. rewrite <- (IH st) at 2. f_equal.
  unfold paragraph_step. destruct st as [sections current_section].
  now rewrite (strip_blank _ Hp).
Qed.

(** The paragraph walk finds no section on a blank page; a blank page of at
    most 1000 characters yields no section. *)
Lemma split_into_sections_blank_short (page_text : string) :
  all_chars isspace page_text = true ->
  len page_text <= 1000 ->
  split_into_sections page_text = [].
Proof.
  intros Hblank Hlen. unfold split_into_sections.
  destruct (negb (truthy page_text)); [reflexivity|].
  rewrite paragraph_loop_blank by now apply split_from_all_chars.
  cbn [truthy length Nat.leb andb].
  apply Nat.ltb_ge in Hlen. now rewrite Hlen.
Qed.

(** C9 fails on a long blank page: for a page of 1001 spaces the paragraph
    walk finds nothing, the split by length takes over and returns the one
    section ".". *)
Theorem split_into_sections_blank_long :
  all_chars isspace blank_page_1001 = true
  /\ len blank_page_1001 = 1001
  /\ split_by_length blank_page_1001 800 = ["."]
  /\ split_into_sections blank_page_1001 = ["."].
Proof. repeat split; vm_compute; reflexivity. Qed.

Example split_into_sections_blank_short_example :
  split_into_sections blank_page_short = [].
Proof. apply split_into_sections_blank_short; vm_compute; [reflexivity | lia]. Qed.

(** ** Repeated sentences in a summary *)

(** C4 fails when a selected sentence occurs more than once: of the four
    sentences of [repeated_sentence_text] the two with "neural" score highest
    and the first of the two equal sentences about cats is third, but the
    summary holds all four, because the other copy equals a selected one. *)
Theorem summary_repeats_sentence :
  split_sentences repeated_sentence_text
  = [cats_sentence; discovery_sentence; another_sentence; cats_sentence]
  /\ generate_extractive_summary repeated_sentence_text ["neural"]
     = join " " [cats_sentence; discovery_sentence; another_sentence; cats_sentence].
Proof. split; vm_compute; reflexivity. Qed.

(** ** Keyword ranking *)








Lemma counter_add_keys (c : list (string * Z)) (w : string) :
  map fst (counter_add c w)
  = if in_dec string_dec w (map fst c) then map fst c else map fst c ++ [w].
Proof.
  induction c as [|[k n] c IH]; cbn [counter_add]; [reflexivity|].
  destruct (String.eqb_spec k w) as [-> | Hne].
  - destruct (in_dec string_dec w (map fst ((w, n) :: c))) as [_ | Hn];
      [reflexivity | exfalso; apply Hn; now left].
  - cbn [map fst]. rewrite IH.
    destruct (in_dec string_dec w (map fst c)) as [Hin | Hout].
    + destruct (in_dec string_dec w (k :: map fst c)) as [_ | Hn];
        [reflexivity | exfalso; apply Hn; now right].
    + destruct (in_dec string_dec w (k :: map fst c)) as [[? | ?] | _];
        [contradiction | contradiction | reflexivity].
Qed.

Lemma counter_add_In (c : list (string * Z)) (w k : string) (n : Z) :
  List.NoDup (map fst c) ->
  In (k, n) (counter_add c w) ->
  (k <> w /\ In (k, n) c)
  \/ (k = w /\ ((exists m, In (w, m) c /\ n = (m + 1)%Z)
                \/ (~ In w (map fst c) /\ n = 1%Z))).
Proof.
  induction c as [|[k0 n0] c IH]; cbn [counter_add map fst]; intros Hnd H.
  - destruct H as [H | []]. injection H as <- <-. right. split; [reflexivity|].
    right. split; [intros [] | reflexivity].
  - apply List.NoDup_cons_iff in Hnd. destruct Hnd as [Hk0 Hnd].
    destruct (String.eqb_spec k0 w) as [-> | Hne].
    + destruct H as [H | H].
      * injection H as <- <-. right. split; [reflexivity|].
        left. exists n0. split; [now left | reflexivity].
      * left. split; [|now right].
        intros ->. apply Hk0. apply (in_map fst) in H. exact H.
    + destruct H as [H | H].
      * injection H as <- <-. left. split; [exact Hne | now left].
      * destruct (IH Hnd H) as [[Hkw Hin] | [-> [(m & Hin & ->) | [Hout ->]]]].
        -- left. split; [exact Hkw | now right].
        -- right. split; [reflexivity|]. left. exists m. split; [now right | reflexivity].
        -- right. split; [reflexivity|]. right. split; [|reflexivity].
           intros [? | ?]; [contradiction | now apply Hout].
Qed.

Lemma Counter_snoc (l : list string) (w : string) :
  Counter (l ++ [w]) = counter_add (Counter l) w.
Proof. unfold Counter. now rewrite fold_left_app. Qed.

Lemma Counter_keys_In (l : list string) (k : string) :
  In k (map fst (Counter l)) <-> In k l.
Proof.
  induction l as [|w l IH] using rev_ind; [reflexivity|].
  rewrite Counter_snoc, counter_add_keys, in_app_iff.
  destruct (in_dec string_dec w (map fst (Counter l))) as [Hin | Hout].
  - rewrite IH. split; [tauto|]. intros [H | [<- | []]]; [exact H | now apply IH].
  - rewrite in_app_iff, IH. reflexivity.
Qed.

Lemma Counter_keys_NoDup (l : list string) : List.NoDup (map fst (Counter l)).
Proof.
  induction l as [|w l IH] using rev_ind; [constructor|].
  rewrite Counter_snoc, counter_add_keys.
  destruct (in_dec string_dec w (map fst (Counter l))) as [Hin | Hout]; [exact IH|].
  apply List.NoDup_app; [exact IH | repeat constructor; intros [] |].
  intros x Hx [<- | []]. contradiction.
Qed.


(** The counts of a [Counter] are the numbers of occurrences. *)
Lemma Counter_counts (l : list string) (k : string) (n : Z) :
  In (k, n) (Counter l) -> n = Z.of_nat (count_occ string_dec l k).
Proof.
  revert k n. induction l as [|w l IH] using rev_ind; intros k n H; [destruct H|].
  rewrite Counter_snoc in H.
  apply counter_add_In in H; [|apply Counter_keys_NoDup].
  rewrite count_occ_app. cbn [count_occ].
  destruct H as [[Hne H] | [-> [(m & H & ->) | [Hout ->]]]].
  - destruct (string_dec w k) as [-> | _]; [contradiction|].
    rewrite Nat.add_0_r. now apply IH.
  - destruct (string_dec w w) as [_ | Hn]; [|contradiction].
    rewrite (IH _ _ H). lia.
  - destruct (string_dec w w) as [_ | Hn]; [|contradiction].
    rewrite Counter_keys_In in Hout.
    apply (count_occ_not_In string_dec) in Hout. rewrite Hout. reflexivity.
Qed.




Lemma list_to_map_Counter (l : list string) (k : string) :
  In k l ->
  (list_to_map (Counter l) : gmap string Z) !! k
  = Some (Z.of_nat (count_occ string_dec l k)).
Proof.
  intros Hk. apply Counter_keys_In in Hk. apply in_map_iff in Hk.
  destruct Hk as ([k' n] & Hfst & Hin). cbn [fst] in Hfst. subst k'.
  rewrite <- (Counter_counts _ _ _ Hin).
  apply elem_of_list_to_map_1.
  - pose proof (Counter_keys_NoDup l) as Hnd.
    replace (Counter l).*1 with (map fst (Counter l));
      [now apply NoDup_ListNoDup|].
    clear. induction (Counter l) as [|x c IH]; [reflexivity|].
    cbn. now rewrite IH.
  - now apply list_elem_of_In.
Qed.



Lemma first_occurrences_In (l : list string) (x : string) :
  In x (first_occurrences l) <-> In x l.
Proof.
  induction l as [|y l IH]; cbn [first_occurrences In]; [reflexivity|].
  rewrite List.filter_In, IH, negb_true_iff.
  destruct (String.eqb_spec x y) as [-> | Hne]; [tauto|].
  split; [tauto|]. intros [-> | H]; [contradiction | tauto].
Qed.

Lemma first_occurrences_NoDup (l : list string) : List.NoDup (first_occurrences l).
Proof.
  induction l as [|y l IH]; cbn [first_occurrences]; constructor.
  - rewrite List.filter_In, String.eqb_refl. cbn. intros [_ H]. discriminate.
  - now apply List.NoDup_filter.
Qed.

Lemma reversed_set_iteration : set_iteration reversed_set.
Proof.
  intros l. unfold reversed_set. split.
  - apply List.NoDup_rev, first_occurrences_NoDup.
  - intros x. rewrite <- in_rev. apply first_occurrences_In.
Qed.


Example ranked_keywords_alpha_beta :
  combined_keywords
    (extract_keywords None no_tokenizer no_tagger reversed_set "alpha beta" EmptyString)
  = ["alpha beta"; "beta"; "alpha"]
  /\ spec_ranked_keywords None no_tokenizer no_tagger reversed_set
       "alpha beta" EmptyString
     = ["alpha"; "beta"; "alpha beta"].
Proof. split; vm_compute; reflexivity. Qed.


(** Without repeated sentences the summary of a longer text is made of three
    sentences, those selected by score, in the order of the text. *)
Lemma summary_of_distinct_sentences (text : string) (keywords : list string) :
  let sentences := split_sentences text in
  let selected_sentences :=
    map fst
      (firstn 3
         (sort_desc sentence_score_lt
            (map (fun sentence => (sentence, score_sentence sentence keywords))
               sentences))) in
  let original_order_sentences :=
    List.filter (fun sentence => existsb (String.eqb sentence) selected_sentences)
      sentences in
  3 < length sentences ->
  List.NoDup sentences ->
  generate_extractive_summary text keywords = join " " original_order_sentences
  /\ length original_order_sentences = 3
  /\ Permutation original_order_sentences selected_sentences.
Proof.
  intros sentences selected picked Hlong Hnd.
  set (scored := map (fun sentence => (sentence, score_sentence sentence keywords))
                   sentences) in *.
  set (sorted := sort_desc sentence_score_lt scored) in *.
  assert (Hkeys : Permutation (map fst sorted) sentences).
  { transitivity (map fst scored).
    - apply Permutation_map, sort_desc_perm.
    - unfold scored. rewrite map_map. cbn [fst]. now rewrite map_id. }
  assert (Hsplit : map fst sorted = selected ++ map fst (skipn 3 sorted)).
  { unfold selected. now rewrite <- map_app, firstn_skipn. }
  assert (Hsel_nd : List.NoDup selected).
  { apply (List.NoDup_app_remove_r _ (map fst (skipn 3 sorted))).
    rewrite <- Hsplit. eapply Permutation_NoDup; [symmetry; exact Hkeys | exact Hnd]. }
  assert (Hsel_in : forall x, In x selected -> In x sentences).
  { intros x Hx. eapply Permutation_in; [exact Hkeys|].
    rewrite Hsplit. apply in_or_app. now left. }
  assert (Hperm : Permutation picked selected).
  { apply Stdlib.Sorting.Permutation.NoDup_Permutation; [now apply List.NoDup_filter | exact Hsel_nd |].
    intros x. unfold picked. rewrite List.filter_In, existsb_exists. split.
    - intros [_ (y & Hy & Heq)]. apply String.eqb_eq in Heq. now subst y.
    - intros Hx. split; [now apply Hsel_in|].
      exists x. split; [exact Hx | apply String.eqb_refl]. }
  split; [|split; [|exact Hperm]].
  - unfold generate_extractive_summary.
    destruct text as [|c text]; [cbn in Hlong; lia|].
    cbn [truthy negb]. fold sentences.
    destruct (Nat.leb_spec (length sentences) summary_sentences) as [Hle | _];
      [unfold summary_sentences in Hle; lia | reflexivity].
  - rewrite (Permutation_length Hperm). unfold selected.
    rewrite length_map, length_firstn. unfold sorted.
    rewrite sort_desc_length. unfold scored. rewrite length_map. lia.
Qed.

(** The divisor of the sentence score is not zero on a non-empty sentence. *)
Lemma sentence_divisor_nonzero (sentence : string) :
  truthy sentence = true ->
  ~ (inject_Z (Z.of_nat (len sentence)) / 100 == 0)%Q.
Proof.
  destruct sentence as [|c s]; [discriminate|]. intros _ H.
  unfold Qeq, Qdiv, Qmult, Qinv, inject_Z in H.
  cbn [Qnum Qden len String.length] in H. lia.
Qed.

(** ** Stripped strings *)

Import StrShape.

Lemma all_chars_lstrip (p : ascii -> bool) (s : string) :
  all_chars p s = true -> all_chars p (lstrip s) = true.
Proof.
  induction s as [|c s IH]; cbn [lstrip]; [reflexivity|]. intros H.
  destruct (isspace c); [|exact H].
  cbn [all_chars] in H. apply andb_prop in H. now apply IH.
Qed.

Lemma all_chars_rstrip (p : ascii -> bool) (s : string) :
  all_chars p s = true -> all_chars p (rstrip s) = true.
Proof.
  induction s as [|c s IH]; cbn [rstrip all_chars]; [reflexivity|]. intros H.
  apply andb_prop in H. destruct H as [Hc H]. specialize (IH H).
  destruct (rstrip s) as [|d r].
  - destruct (isspace c); [reflexivity | cbn; now rewrite Hc].
  - cbn [all_chars] in *. now rewrite Hc, IH.
Qed.

Lemma all_chars_strip (p : ascii -> bool) (s : string) :
  all_chars p s = true -> all_chars p (strip s) = true.
Proof. intros H. now apply all_chars_rstrip, all_chars_lstrip. Qed.

Lemma lstrip_shape (s : string) :
  lstrip s = EmptyString \/ starts_nonspace (lstrip s) = true.
Proof.
  induction s as [|c s IH]; cbn [lstrip]; [now left|].
  destruct (isspace c) eqn:Hc; [exact IH|]. right. cbn. now rewrite Hc.
Qed.

Lemma rstrip_shape (s : string) :
  rstrip s = EmptyString \/ ends_nonspace (rstrip s) = true.
Proof.
  induction s as [|c s IH]; cbn [rstrip]; [now left|].
  destruct (rstrip s) as [|d r] eqn:Hr.
  - destruct (isspace c) eqn:Hc; [now left|]. right. cbn. now rewrite Hc.
  - right. destruct IH as [IH | IH]; [discriminate|]. exact IH.
Qed.

Lemma rstrip_head (s : string) :
  starts_nonspace s = true -> starts_nonspace (rstrip s) = true.
Proof.
  destruct s as [|c s]; [discriminate|]. cbn [starts_nonspace rstrip]. intros Hc.
  destruct (rstrip s); [|exact Hc].
  apply negb_true_iff in Hc. rewrite Hc. cbn. now rewrite Hc.
Qed.

Lemma strip_shape (s : string) :
  strip s = EmptyString
  \/ (starts_nonspace (strip s) = true /\ ends_nonspace (strip s) = true).
Proof.
  unfold strip. destruct (lstrip_shape s) as [-> | Hl]; [now left|].
  right. split; [now apply rstrip_head|].
  destruct (rstrip_shape (lstrip s)) as [Hr | Hr]; [|exact Hr].
  apply rstrip_head in Hl. rewrite Hr in Hl. discriminate.
Qed.

Lemma lstrip_id (s : string) : starts_nonspace s = true -> lstrip s = s.
Proof.
  destruct s as [|c s]; [discriminate|]. cbn. intros H.
  apply negb_true_iff in H. now rewrite H.
Qed.

Lemma rstrip_id (s : string) : ends_nonspace s = true -> rstrip s = s.
Proof.
  induction s as [|c s IH]; [discriminate|]. intros H.
  cbn [rstrip]. destruct s as [|d s].
  - cbn in *. apply negb_true_iff in H. now rewrite H.
  - rewrite IH by exact H. reflexivity.
Qed.

Lemma strip_id (s : string) :
  starts_nonspace s = true -> ends_nonspace s = true -> strip s = s.
Proof. intros H1 H2. unfold strip. rewrite lstrip_id by exact H1. now apply rstrip_id. Qed.

Lemma strip_idempotent (s : string) : strip (strip s) = strip s.
Proof.
  destruct (strip_shape s) as [-> | [H1 H2]]; [reflexivity | now apply strip_id].
Qed.

Lemma rstrip_blank (s : string) : all_chars isspace s = true -> rstrip s = EmptyString.
Proof.
  induction s as [|c s IH]; cbn [all_chars rstrip]; [reflexivity|].
  intros H. apply andb_prop in H. destruct H as [Hc H]. now rewrite IH, Hc.
Qed.

Lemma append_cons (c : ascii) (s t : string) : String c s +:+ t = String c (s +:+ t).
Proof. reflexivity. Qed.

Lemma append_nil (t : string) : EmptyString +:+ t = t.
Proof. reflexivity. Qed.

Lemma rstrip_app_blank (s t : string) :
  ends_nonspace s = true -> all_chars isspace t = true -> rstrip (s +:+ t) = s.
Proof.
  intros Hs Ht. induction s as [|c s IH]; [discriminate|].
  rewrite append_cons. cbn [rstrip]. destruct s as [|d s].
  - rewrite append_nil, (rstrip_blank _ Ht). cbn in Hs.
    apply negb_true_iff in Hs. now rewrite Hs.
  - rewrite IH by exact Hs. reflexivity.
Qed.

Lemma strip_app_blank (s t : string) :
  starts_nonspace s = true -> ends_nonspace s = true ->
  all_chars isspace t = true -> strip (s +:+ t) = s.
Proof.
  intros H1 H2 Ht. unfold strip. rewrite lstrip_id.
  - now apply rstrip_app_blank.
  - destruct s; [discriminate | exact H1].
Qed.

Lemma starts_nonspace_truthy (s : string) : starts_nonspace s = true -> truthy s = true.
Proof. destruct s; [discriminate | reflexivity]. Qed.

Lemma ends_nonspace_app (s t : string) :
  ends_nonspace t = true -> ends_nonspace (s +:+ t) = true.
Proof.
  intros Ht. induction s as [|c s IH]; [exact Ht|].
  rewrite append_cons. cbn [ends_nonspace].
  destruct (s +:+ t) eqn:Hst; [discriminate IH | exact IH].
Qed.

Lemma starts_nonspace_app (s t : string) :
  starts_nonspace s = true -> starts_nonspace (s +:+ t) = true.
Proof. destruct s; [discriminate | intros H; exact H]. Qed.

(** ** Lines: [split] and [join] *)

Lemma split_char_lacks (sep : ascii) (s : string) :
  Forall (fun piece => lacks sep piece = true) (split_char sep s).
Proof.
  induction s as [|c s IH]; cbn [split_char]; [repeat constructor|].
  destruct (Ascii.eqb c sep) eqn:Hc; [now constructor|].
  destruct IH as [|p ps Hp Hps]; constructor; try assumption.
  - unfold lacks. cbn. now rewrite Hc.
  - constructor.
  - unfold lacks in *. cbn [all_chars]. now rewrite Hc, Hp.
Qed.

Lemma split_char_whole (sep : ascii) (s : string) :
  lacks sep s = true -> split_char sep s = [s].
Proof.
  unfold lacks. induction s as [|c s IH]; cbn [all_chars split_char]; [reflexivity|].
  intros H. apply andb_prop in H. destruct H as [Hc H].
  apply negb_true_iff in Hc. now rewrite Hc, IH.
Qed.

Lemma split_char_app (sep : ascii) (x rest : string) :
  lacks sep x = true ->
  split_char sep (x +:+ String sep rest) = x :: split_char sep rest.
Proof.
  unfold lacks. induction x as [|c x IH]; cbn [all_chars]; intros H.
  - rewrite append_nil. cbn [split_char]. now rewrite Ascii.eqb_refl.
  - apply andb_prop in H. destruct H as [Hc H]. apply negb_true_iff in Hc.
    rewrite append_cons. cbn [split_char]. now rewrite Hc, IH.
Qed.

(** Joining lines that hold no separator and splitting again gives the
    lines back. *)
Lemma split_char_join (sep : ascii) (l : list string) :
  l <> [] ->
  Forall (fun line => lacks sep line = true) l ->
  split_char sep (join (String sep EmptyString) l) = l.
Proof.
  intros Hne H. induction H as [|x l Hx Hl IH]; [contradiction|].
  destruct l as [|y l]; [now apply split_char_whole|].
  change (join (String sep EmptyString) (x :: y :: l))
    with (x +:+ String sep (join (String sep EmptyString) (y :: l))).
  rewrite split_char_app by exact Hx. f_equal. now apply IH.
Qed.

Lemma lacks_newline_tight (s : string) : lacks newline s = true -> lines_tight s = true.
Proof.
  unfold lacks. induction s as [|c s IH]; cbn [all_chars lines_tight]; [reflexivity|].
  intros H. apply andb_prop in H. destruct H as [Hc H].
  change (Ascii.eqb c "010") with (Ascii.eqb c newline). now rewrite Hc, IH.
Qed.

Lemma lines_tight_app (x rest : string) :
  lacks newline x = true -> starts_nonspace rest = true -> lines_tight rest = true ->
  lines_tight (x +:+ String newline rest) = true.
Proof.
  unfold lacks. intros Hx Hs Ht. induction x as [|c x IH].
  - rewrite append_nil. cbn [lines_tight]. now rewrite Hs, Ht, orb_true_r.
  - cbn [all_chars] in Hx. apply andb_prop in Hx. destruct Hx as [Hc Hx].
    rewrite append_cons. cbn [lines_tight].
    change (Ascii.eqb c "010") with (Ascii.eqb c newline). now rewrite Hc, IH.
Qed.

(** ** [_clean_text] *)

Import PDFExtractor.

Lemma join_nl_cons (x y : string) (l : list string) :
  join nl (x :: y :: l) = x +:+ String newline (join nl (y :: l)).
Proof. reflexivity. Qed.

Lemma join_shape (lines : list string) :
  lines <> [] ->
  Forall (fun line => starts_nonspace line = true /\ ends_nonspace line = true
                      /\ lacks newline line = true) lines ->
  starts_nonspace (join nl lines) = true
  /\ ends_nonspace (join nl lines) = true
  /\ lines_tight (join nl lines) = true.
Proof.
  intros Hne H. induction H as [|x l (Hs & He & Hl) Hrest IH]; [contradiction|].
  destruct l as [|y l]; [cbn [join]; auto using lacks_newline_tight|].
  destruct IH as (IHs & IHe & IHt); [discriminate|].
  rewrite join_nl_cons. set (rest := join nl (y :: l)) in *.
  split; [now apply starts_nonspace_app|].
  split; [|now apply lines_tight_app].
  apply ends_nonspace_app. cbn [ends_nonspace].
  destruct rest; [discriminate IHe | exact IHe].
Qed.

(** What a cleaned text looks like when it is not empty. *)
Lemma clean_text_shape (text : string) :
  clean_text text <> EmptyString ->
  let cleaned_lines :=
    List.filter (fun line => 3 <? len line) (map strip (split_char newline text)) in
  clean_text text = join nl cleaned_lines
  /\ cleaned_lines <> []
  /\ 100 <= len (clean_text text)
  /\ Forall (fun line => starts_nonspace line = true /\ ends_nonspace line = true
                         /\ lacks newline line = true) cleaned_lines.
Proof.
  intros Hne cleaned_lines. unfold clean_text in *. fold cleaned_lines in Hne |- *.
  destruct (negb (truthy text)); [contradiction|].
  destruct (Nat.ltb_spec (len (join nl cleaned_lines)) 100) as [Hlt | Hge];
    [contradiction|].
  split; [reflexivity|]. split; [|split; [exact Hge|]].
  - intros Hnil. rewrite Hnil in Hge. cbn in Hge. lia.
  - apply List.Forall_forall. intros line Hin. unfold cleaned_lines in Hin.
    apply List.filter_In in Hin. destruct Hin as [Hin Hlen].
    apply in_map_iff in Hin. destruct Hin as (raw & <- & Hraw).
    apply Nat.ltb_lt in Hlen.
    destruct (strip_shape raw) as [Hs | [Hs He]];
      [rewrite Hs in Hlen; cbn in Hlen; lia|].
    split; [exact Hs|]. split; [exact He|].
    apply all_chars_strip.
    pose proof (split_char_lacks newline text) as Hl.
    rewrite List.Forall_forall in Hl. now apply Hl.
Qed.

Lemma cleaned_lines_kept (text : string) :
  clean_text text <> EmptyString ->
  split_char newline (clean_text text)
  = List.filter (fun line => 3 <? len line) (map strip (split_char newline text))
  /\ Forall (fun line => 3 < len line /\ strip line = line)
       (split_char newline (clean_text text)).
Proof.
  intros Hne. destruct (clean_text_shape text Hne) as (Heq & Hnil & _ & Hshape).
  assert (Hsplit : split_char newline (clean_text text)
                   = List.filter (fun line => 3 <? len line)
                       (map strip (split_char newline text))).
  { rewrite Heq. apply split_char_join; [exact Hnil|].
    eapply Forall_impl; [exact Hshape|]. now intros line (_ & _ & H). }
  split; [exact Hsplit|]. rewrite Hsplit.
  apply List.Forall_forall. intros line Hin.
  rewrite List.Forall_forall in Hshape. destruct (Hshape line Hin) as (Hs & He & _).
  apply List.filter_In in Hin. destruct Hin as [_ Hlen]. apply Nat.ltb_lt in Hlen.
  split; [exact Hlen | now apply strip_id].
Qed.

(** The lines of a cleaned text are the lines that were kept: each has more
    than 3 characters and no white space at its ends. *)
Theorem clean_text_lines (text : string) :
  clean_text text <> EmptyString ->
  split_char newline (clean_text text)
  = List.filter (fun line => 3 <? len line) (map strip (split_char newline text))
  /\ Forall (fun line => 3 < len line /\ strip line = line)
       (split_char newline (clean_text text)).
Proof. apply cleaned_lines_kept. Qed.

Lemma filter_all {A : Type} (p : A -> bool) (l : list A) :
  Forall (fun x => p x = true) l -> List.filter p l = l.
Proof.
  induction 1 as [|x l Hx _ IH]; [reflexivity|]. cbn. now rewrite Hx, IH.
Qed.

Lemma map_fixed {A : Type} (f : A -> A) (l : list A) :
  Forall (fun x => f x = x) l -> map f l = l.
Proof.
  induction 1 as [|x l Hx _ IH]; [reflexivity|]. cbn. now rewrite Hx, IH.
Qed.

Lemma clean_text_idempotent_aux (text : string) :
  clean_text (clean_text text) = clean_text text.
Proof.
  destruct (string_dec (clean_text text) EmptyString) as [Hempty | Hne];
    [now rewrite Hempty|].
  destruct (cleaned_lines_kept text Hne) as [Hsplit Hlines].
  destruct (clean_text_shape text Hne) as (Heq & _ & Hlen & _).
  set (cleaned := clean_text text) in *.
  unfold clean_text at 1.
  destruct cleaned as [|c rest] eqn:Hc; [contradiction|]. rewrite <- Hc in *.
  assert (Htruthy : truthy cleaned = true) by now rewrite Hc.
  rewrite Htruthy. cbn [negb].
  rewrite map_fixed by (eapply Forall_impl; [exact Hlines|]; now intros line [_ H]).
  rewrite filter_all.
  - rewrite Hsplit, <- Heq.
    destruct (Nat.ltb_spec (len cleaned) 100) as [Hlt | _]; [lia | reflexivity].
  - eapply Forall_impl; [exact Hlines|]. intros line [H _]. now apply Nat.ltb_lt.
Qed.

(** Cleaning a cleaned text changes nothing. *)
Theorem clean_text_idempotent (text : string) :
  clean_text (clean_text text) = clean_text text.
Proof. apply clean_text_idempotent_aux. Qed.

(** ** Pages without blank lines *)

Lemma nonspace_not_newline (d : ascii) : isspace d = false -> Ascii.eqb newline d = false.
Proof.
  intros H. destruct (Ascii.eqb_spec newline d) as [<- | _]; [|reflexivity].
  vm_compute in H. discriminate H.
Qed.

Lemma paragraph_break_no_match (prev : option ascii) (c : ascii) (s : string) :
  Ascii.eqb c newline = false \/ starts_nonspace s = true ->
  match_len re_paragraph_break prev (String c s) = None.
Proof.
  intros H. unfold match_len, re_paragraph_break, Lit. cbn [rmatch].
  destruct (Ascii.eqb newline c) eqn:Hc; [|reflexivity].
  destruct H as [H | H]; [rewrite Ascii.eqb_sym in H; congruence|].
  destruct s as [|d s]; [reflexivity|].
  cbn [starts_nonspace] in H. apply negb_true_iff in H.
  cbn [len String.length cls_space rmatch]. rewrite H.
  now rewrite (nonspace_not_newline d H).
Qed.

Lemma split_paragraphs_tight (s : string) :
  lines_tight s = true ->
  forall prev, split_from re_paragraph_break 0 prev s = [s].
Proof.
  induction s as [|c s IH]; intros H prev; [reflexivity|].
  cbn [lines_tight] in H. apply andb_prop in H. destruct H as [Hc H].
  cbn [split_from]. rewrite paragraph_break_no_match.
  - now rewrite IH.
  - apply orb_prop in Hc. destruct Hc as [Hc | Hc]; [left | now right].
    now apply negb_true_iff in Hc.
Qed.

Lemma nl2_blank : all_chars isspace nl2 = true.
Proof. reflexivity. Qed.

Lemma tight_page_sections (page_text : string) :
  starts_nonspace page_text = true ->
  ends_nonspace page_text = true ->
  lines_tight page_text = true ->
  split_into_sections page_text
  = if 1000 <? len page_text
    then firstn max_sections_per_page (split_by_length page_text 800)
    else [page_text].
Proof.
  intros Hs He Ht. unfold split_into_sections.
  rewrite (starts_nonspace_truthy _ Hs). cbn [negb].
  unfold re_split. rewrite (split_paragraphs_tight _ Ht). cbn [fold_left].
  assert (Hstep : paragraph_step ([], EmptyString) page_text
                  = ([], page_text +:+ nl2)).
  { unfold paragraph_step. rewrite (strip_id _ Hs He), (starts_nonspace_truthy _ Hs).
    cbn [negb truthy]. now destruct (is_section_header page_text). }
  rewrite Hstep.
  rewrite (starts_nonspace_truthy (page_text +:+ nl2))
    by now apply starts_nonspace_app.
  rewrite (strip_app_blank _ _ Hs He nl2_blank).
  cbn [app length Nat.leb andb].
  now destruct (1000 <? len page_text).
Qed.

(** A page without white space at its ends, in which every newline is
    directly followed by a character that is not white space, is one
    paragraph: up to 1000 characters it is returned as the only section,
    and a longer one is split by length, whatever the header patterns say. *)
Theorem split_into_sections_tight (page_text : string) :
  starts_nonspace page_text = true ->
  ends_nonspace page_text = true ->
  lines_tight page_text = true ->
  split_into_sections page_text
  = if 1000 <? len page_text
    then firstn max_sections_per_page (split_by_length page_text 800)
    else [page_text].
Proof. apply tight_page_sections. Qed.

(** A page that comes out of [_clean_text] is never cut at paragraph
    breaks or headers: it is one section, or it is split by length when it
    has more than 1000 characters. *)
Theorem split_into_sections_cleaned (text : string) :
  clean_text text <> EmptyString ->
  split_into_sections (clean_text text)
  = if 1000 <? len (clean_text text)
    then firstn max_sections_per_page (split_by_length (clean_text text) 800)
    else [clean_text text].
Proof.
  intros Hne. destruct (clean_text_shape text Hne) as (Heq & Hnil & _ & Hshape).
  destruct (join_shape _ Hnil Hshape) as (Hs & He & Ht).
  rewrite <- Heq in Hs, He, Ht.
  exact (tight_page_sections _ Hs He Ht).
Qed.

(** ** [extract_text] and [extract_all] *)

Lemma filter_length_le {A : Type} (p : A -> bool) (l : list A) :
  length (List.filter p l) <= length l.
Proof. induction l as [|x l IH]; cbn; [lia|]. destruct (p x); cbn; lia. Qed.

(** A document gives at most 100 pages; every page has at least 100
    characters and is a cleaned text; a document that cannot be read gives
    no page. *)
Theorem extract_text_pages (page_texts : string -> option (list string))
    (pdf_path : string) :
  length (extract_text page_texts pdf_path) <= max_pages_per_pdf
  /\ Forall (fun page => 100 <= len page /\ clean_text page = page)
       (extract_text page_texts pdf_path)
  /\ (page_texts pdf_path = None -> extract_text page_texts pdf_path = []).
Proof.
  unfold extract_text. destruct (page_texts pdf_path) as [pages|].
  - split; [|split; [|discriminate]].
    + etransitivity; [apply filter_length_le|].
      rewrite length_map, length_firstn. apply Nat.le_min_l.
    + apply List.Forall_forall. intros page Hin.
      apply List.filter_In in Hin. destruct Hin as [Hin Htruthy].
      apply in_map_iff in Hin. destruct Hin as (raw & <- & _).
      assert (Hne : clean_text raw <> EmptyString)
        by (intros Heq; rewrite Heq in Htruthy; discriminate).
      split; [now destruct (clean_text_shape raw Hne) as (_ & _ & H & _)|].
      apply clean_text_idempotent_aux.
  - cbn. split; [lia|]. split; [constructor | reflexivity].
Qed.

Lemma dict_set_keys {V : Type} (d : list (string * V)) (k : string) (v : V) :
  map fst (dict_set d k v)
  = if in_dec string_dec k (map fst d) then map fst d else map fst d ++ [k].
Proof.
  induction d as [|[k' v'] d IH]; cbn [dict_set]; [reflexivity|].
  destruct (String.eqb_spec k' k) as [-> | Hne].
  - destruct (in_dec string_dec k (map fst ((k, v') :: d))) as [_ | Hn];
      [reflexivity | exfalso; apply Hn; now left].
  - cbn [map fst]. rewrite IH.
    destruct (in_dec string_dec k (map fst d)) as [Hin | Hout].
    + destruct (in_dec string_dec k (k' :: map fst d)) as [_ | Hn];
        [reflexivity | exfalso; apply Hn; now right].
    + destruct (in_dec string_dec k (k' :: map fst d)) as [[? | ?] | _];
        [contradiction | contradiction | reflexivity].
Qed.

Lemma dict_set_In {V : Type} (d : list (string * V)) (k k' : string) (v v' : V) :
  List.NoDup (map fst d) ->
  In (k', v') (dict_set d k v) <-> (k' = k /\ v' = v) \/ (k' <> k /\ In (k', v') d).
Proof.
  induction d as [|[k0 v0] d IH]; cbn [dict_set map fst]; intros Hnd.
  - cbn. split.
    + intros [H | []]. injection H as <- <-. now left.
    + intros [[-> ->] | [_ []]]. now left.
  - apply List.NoDup_cons_iff in Hnd. destruct Hnd as [Hk0 Hnd].
    destruct (String.eqb_spec k0 k) as [-> | Hne]; cbn [In].
    + split.
      * intros [H | H]; [injection H as <- <-; now left|].
        right. split; [|now right].
        intros ->. apply Hk0. now apply (in_map fst) in H.
      * intros [[-> ->] | [Hne [H | H]]]; [now left | | now right].
        injection H as <- _. contradiction.
    + rewrite (IH Hnd). split.
      * intros [H | [H | [H1 H2]]]; [|now left | right; split; [exact H1 | now right]].
        injection H as <- <-. right. split; [exact Hne | now left].
      * intros [H | [H1 [H2 | H2]]]; [right; now left | now left |].
        right. right. now split.
Qed.

Lemma extract_all_snoc (page_texts : string -> option (list string))
    (path_name : string -> string) (pdf_files : list string) (pdf_file : string) :
  extract_all page_texts path_name (pdf_files ++ [pdf_file])
  = dict_set (extract_all page_texts path_name pdf_files) (path_name pdf_file)
      (extract_text page_texts pdf_file).
Proof. unfold extract_all. now rewrite fold_left_app. Qed.

Lemma extract_all_keys_NoDup (page_texts : string -> option (list string))
    (path_name : string -> string) (pdf_files : list string) :
  List.NoDup (map fst (extract_all page_texts path_name pdf_files)).
Proof.
  induction pdf_files as [|f files IH] using rev_ind; [constructor|].
  rewrite extract_all_snoc, dict_set_keys.
  destruct (in_dec string_dec _ _) as [_ | Hout]; [exact IH|].
  apply List.NoDup_app; [exact IH | repeat constructor; intros [] |].
  intros x Hx [<- | []]. contradiction.
Qed.

(** The mapping of document names to pages has one entry per name; the
    names are the names of the given paths, and the entry of a name holds
    the pages of the last path with this name. *)
Theorem extract_all_documents (page_texts : string -> option (list string))
    (path_name : string -> string) (pdf_files : list string) :
  List.NoDup (map fst (extract_all page_texts path_name pdf_files))
  /\ (forall name,
        In name (map fst (extract_all page_texts path_name pdf_files))
        <-> exists pdf_file, In pdf_file pdf_files /\ path_name pdf_file = name)
  /\ (forall before pdf_file after,
        pdf_files = before ++ pdf_file :: after ->
        (forall other, In other after -> path_name other <> path_name pdf_file) ->
        In (path_name pdf_file, extract_text page_texts pdf_file)
          (extract_all page_texts path_name pdf_files)).
Proof.
  split; [apply extract_all_keys_NoDup|]. split.
  - induction pdf_files as [|f files IH] using rev_ind; intros name.
    + cbn. split; [intros [] | intros (? & [] & _)].
    + rewrite extract_all_snoc, dict_set_keys.
      assert (Hsnoc : (exists pdf_file, In pdf_file (files ++ [f])
                                        /\ path_name pdf_file = name)
                      <-> (exists pdf_file, In pdf_file files
                                            /\ path_name pdf_file = name)
                          \/ path_name f = name).
      { split.
        - intros (g & Hg & Hname). apply in_app_or in Hg.
          destruct Hg as [Hg | [<- | []]]; [left; now exists g | now right].
        - intros [(g & Hg & Hname) | Hname].
          + exists g. split; [apply in_or_app; now left | exact Hname].
          + exists f. split; [apply in_or_app; right; now left | exact Hname]. }
      rewrite Hsnoc, <- IH.
      destruct (in_dec string_dec _ _) as [Hin | Hout].
      * split; [now left | intros [H | <-]; assumption].
      * rewrite in_app_iff. cbn [In]. split; [intros [H | [H | []]] | intros [H | H]];
          auto.
  - induction pdf_files as [|f files IH] using rev_ind; intros before g after Heq Hlast.
    + destruct before; discriminate.
    + rewrite extract_all_snoc.
      apply dict_set_In; [apply extract_all_keys_NoDup|].
      destruct after as [|a after _] using rev_ind.
      * apply app_inj_tail in Heq. destruct Heq as [_ ->]. now left.
      * rewrite app_comm_cons, app_assoc in Heq.
        apply app_inj_tail in Heq. destruct Heq as [-> ->].
        right. split.
        -- intros Heq. symmetry in Heq. revert Heq. apply Hlast.
           apply in_or_app. right. now left.
        -- apply (IH before g after eq_refl).
           intros other Hother. apply Hlast. apply in_or_app. now left.
Qed.

(** ** Sections: shape of the result *)

Lemma append_assoc (a b c : string) : (a +:+ b) +:+ c = a +:+ (b +:+ c).
Proof.
  induction a as [|x a IH]; [reflexivity|]. rewrite !append_cons. now rewrite IH.
Qed.

Lemma len_append (a b : string) : len (a +:+ b) = len a + len b.
Proof.
  induction a as [|x a IH]; [reflexivity|].
  rewrite append_cons. cbn [len String.length]. unfold len in IH. now rewrite IH.
Qed.

Lemma all_chars_append (p : ascii -> bool) (a b : string) :
  all_chars p (a +:+ b) = all_chars p a && all_chars p b.
Proof.
  induction a as [|x a IH]; [reflexivity|].
  rewrite append_cons. cbn [all_chars]. now rewrite IH, andb_assoc.
Qed.

Lemma lstrip_app (t w : string) :
  starts_nonspace w = true -> lstrip (t +:+ w) = lstrip t +:+ w.
Proof.
  intros Hw. induction t as [|c t IH]; [now apply lstrip_id|].
  rewrite append_cons. cbn [lstrip]. now destruct (isspace c).
Qed.

Lemma endswith_app (t p : string) : endswith p (t +:+ p) = true.
Proof.
  induction t as [|c t IH].
  - rewrite append_nil. destruct p; cbn [endswith]; now rewrite String.eqb_refl.
  - rewrite append_cons. cbn [endswith]. now rewrite IH, orb_true_r.
Qed.

(** What [(t + ". ").strip()] is. *)
Lemma strip_sentence_end (t : string) : strip (t +:+ ". ") = lstrip t +:+ ".".
Proof.
  unfold strip. rewrite lstrip_app by reflexivity.
  change ". " with ("." +:+ " "). rewrite <- append_assoc.
  apply rstrip_app_blank; [|reflexivity].
  now apply ends_nonspace_app.
Qed.

Lemma chunk_shape (t : string) :
  endswith "." (strip (t +:+ ". ")) = true
  /\ strip (strip (t +:+ ". ")) = strip (t +:+ ". ").
Proof.
  split; [|apply strip_idempotent].
  rewrite strip_sentence_end. apply endswith_app.
Qed.

Lemma split_from_nonempty (r : regex) (s : string) (skip : nat) (prev : option ascii) :
  split_from r skip prev s <> [].
Proof.
  revert skip prev. induction s as [|c s IH]; intros skip prev; cbn [split_from];
    [discriminate|].
  destruct skip as [|skip]; [|apply IH].
  destruct (match_len r prev (String c s)) as [[|n]|]; try discriminate;
    unfold cons_char; now destruct (split_from r 0 (Some c) s).
Qed.

Lemma split_by_length_step_shape (target_length : nat) (st : list string * string)
    (sentence : string) :
  Forall (fun chunk => endswith "." chunk = true /\ strip chunk = chunk) (fst st) ->
  snd st = EmptyString \/ (exists t, snd st = t +:+ ". ") ->
  Forall (fun chunk => endswith "." chunk = true /\ strip chunk = chunk)
    (fst (split_by_length_step target_length st sentence))
  /\ exists t, snd (split_by_length_step target_length st sentence) = t +:+ ". ".
Proof.
  destruct st as [sections current]. cbn [fst snd]. intros Hs Hc.
  unfold split_by_length_step.
  destruct ((target_length <? len current + len sentence) && truthy current) eqn:Hb;
    cbn [fst snd].
  - split; [|now exists sentence].
    apply Forall_app. split; [exact Hs|]. constructor; [|constructor].
    apply andb_prop in Hb. destruct Hb as [_ Hb].
    destruct Hc as [-> | [t ->]]; [discriminate | apply chunk_shape].
  - split; [exact Hs|]. exists (current +:+ sentence). now rewrite append_assoc.
Qed.

Lemma split_by_length_loop_shape (target_length : nat) (sentences : list string)
    (st : list string * string) :
  Forall (fun chunk => endswith "." chunk = true /\ strip chunk = chunk) (fst st) ->
  (exists t, snd st = t +:+ ". ") ->
  Forall (fun chunk => endswith "." chunk = true /\ strip chunk = chunk)
    (fst (fold_left (split_by_length_step target_length) sentences st))
  /\ exists t, snd (fold_left (split_by_length_step target_length) sentences st)
               = t +:+ ". ".
Proof.
  revert st. induction sentences as [|sentence sentences IH]; intros st Hs Hc;
    [now split|].
  cbn [fold_left].
  destruct (split_by_length_step_shape target_length st sentence Hs (or_intror Hc))
    as [Hs' Hc'].
  now apply IH.
Qed.

Lemma split_by_length_shape (text : string) (target_length : nat) :
  split_by_length text target_length <> []
  /\ Forall (fun chunk => endswith "." chunk = true /\ strip chunk = chunk)
       (split_by_length text target_length).
Proof.
  unfold split_by_length, re_split.
  pose proof (split_from_nonempty re_sentence_break text 0 None) as Hne.
  destruct (split_from re_sentence_break 0 None text) as [|sentence sentences];
    [contradiction|].
  cbn [fold_left].
  destruct (split_by_length_step_shape target_length ([], EmptyString) sentence)
    as [Hs Hc]; [constructor | now left |].
  destruct (split_by_length_loop_shape target_length sentences _ Hs Hc) as [Hs' [t Ht]].
  destruct (fold_left _ sentences _) as [sections current]. cbn [fst snd] in *.
  subst current.
  assert (Htruthy : truthy (t +:+ ". ") = true) by now destruct t.
  rewrite Htruthy. split; [now destruct sections|].
  apply Forall_app. split; [exact Hs'|]. constructor; [apply chunk_shape | constructor].
Qed.

(** The split by length never returns an empty list, not even for an empty
    text; every chunk ends with a full stop and has no white space at its
    ends. *)
Theorem split_by_length_chunks (text : string) (target_length : nat) :
  split_by_length text target_length <> []
  /\ Forall (fun chunk => endswith "." chunk = true /\ strip chunk = chunk)
       (split_by_length text target_length).
Proof. apply split_by_length_shape. Qed.

Lemma rstrip_empty_blank (s : string) :
  rstrip s = EmptyString -> all_chars isspace s = true.
Proof.
  induction s as [|c s IH]; [reflexivity|]. cbn [rstrip all_chars].
  destruct (rstrip s) as [|d r]; [|discriminate].
  destruct (isspace c); [intros _; now apply IH | discriminate].
Qed.

Lemma lstrip_blank_inv (s : string) :
  all_chars isspace (lstrip s) = true -> all_chars isspace s = true.
Proof.
  induction s as [|c s IH]; [reflexivity|]. cbn [lstrip].
  destruct (isspace c) eqn:Hc; [|intros H; exact H].
  intros H. cbn [all_chars]. now rewrite Hc, IH.
Qed.

Lemma strip_empty_blank (s : string) :
  strip s = EmptyString -> all_chars isspace s = true.
Proof. intros H. now apply lstrip_blank_inv, rstrip_empty_blank. Qed.

Lemma starts_nonspace_not_blank (s : string) :
  starts_nonspace s = true -> all_chars isspace s = false.
Proof.
  destruct s as [|c s]; [discriminate|]. cbn. intros H.
  apply negb_true_iff in H. now rewrite H.
Qed.

Lemma paragraph_step_shape (st : list string * string) (paragraph : string) :
  Forall (fun section => section <> EmptyString /\ strip section = section) (fst st) ->
  snd st = EmptyString \/ all_chars isspace (snd st) = false ->
  Forall (fun section => section <> EmptyString /\ strip section = section)
    (fst (paragraph_step st paragraph))
  /\ (snd (paragraph_step st paragraph) = EmptyString
      \/ all_chars isspace (snd (paragraph_step st paragraph)) = false).
Proof.
  destruct st as [sections current]. cbn [fst snd]. intros Hs Hc.
  unfold paragraph_step.
  destruct (strip_shape paragraph) as [-> | [Hp _]]; [now split|].
  rewrite (starts_nonspace_truthy _ Hp). cbn [negb].
  apply starts_nonspace_not_blank in Hp.
  destruct (is_section_header (strip paragraph)); cbn [fst snd].
  - split; [|right; now rewrite all_chars_append, Hp].
    destruct (truthy current) eqn:Htruthy; [|exact Hs].
    apply Forall_app. split; [exact Hs|].
    constructor; [|constructor]. split; [|apply strip_idempotent].
    intros Hempty. apply strip_empty_blank in Hempty.
    destruct Hc as [-> | Hc]; [discriminate Htruthy | congruence].
  - split; [exact Hs|]. right.
    now rewrite !all_chars_append, Hp, andb_false_r.
Qed.

Lemma paragraph_loop_shape (paragraphs : list string) (st : list string * string) :
  Forall (fun section => section <> EmptyString /\ strip section = section) (fst st) ->
  snd st = EmptyString \/ all_chars isspace (snd st) = false ->
  Forall (fun section => section <> EmptyString /\ strip section = section)
    (fst (fold_left paragraph_step paragraphs st))
  /\ (snd (fold_left paragraph_step paragraphs st) = EmptyString
      \/ all_chars isspace (snd (fold_left paragraph_step paragraphs st)) = false).
Proof.
  revert st. induction paragraphs as [|p paragraphs IH]; intros st Hs Hc; [now split|].
  cbn [fold_left]. destruct (paragraph_step_shape st p Hs Hc) as [Hs' Hc'].
  now apply IH.
Qed.

Lemma endswith_nonempty (p s : string) :
  endswith p s = true -> p <> EmptyString -> s <> EmptyString.
Proof.
  intros H Hp ->. cbn in H. rewrite orb_false_r in H.
  apply String.eqb_eq in H. contradiction.
Qed.

Lemma split_into_sections_shape (page_text : string) :
  length (split_into_sections page_text) <= max_sections_per_page
  /\ Forall (fun section => section <> EmptyString /\ strip section = section)
       (split_into_sections page_text).
Proof.
  unfold split_into_sections.
  destruct (negb (truthy page_text)); [split; [cbn; lia | constructor]|].
  destruct (paragraph_loop_shape (re_split re_paragraph_break page_text)
              ([], EmptyString)) as [Hs Hc]; [constructor | now left |].
  destruct (fold_left paragraph_step _ _) as [sections current]. cbn [fst snd] in *.
  split; [rewrite length_firstn; lia|].
  apply Forall_take.
  destruct ((length (if truthy current then sections ++ [strip current] else sections)
             <=? 1) && (1000 <? len page_text)).
  - destruct (split_by_length_shape page_text 800) as [_ H].
    eapply Forall_impl; [exact H|]. intros chunk [H1 H2].
    split; [|exact H2]. now apply (endswith_nonempty "." chunk).
  - destruct (truthy current) eqn:Htruthy; [|exact Hs].
    apply Forall_app. split; [exact Hs|].
    constructor; [|constructor]. split; [|apply strip_idempotent].
    intros Hempty. apply strip_empty_blank in Hempty.
    destruct Hc as [-> | Hc]; [discriminate Htruthy | congruence].
Qed.

(** A page gives at most 5 sections; no section is empty and none has white
    space at its ends. *)
Theorem split_into_sections_sections (page_text : string) :
  length (split_into_sections page_text) <= max_sections_per_page
  /\ Forall (fun section => section <> EmptyString /\ strip section = section)
       (split_into_sections page_text).
Proof. apply split_into_sections_shape. Qed.

(** ** Headers and titles *)

Lemma header_patterns_first_char (c : ascii) (rest : string) :
  isdecimal c = false -> is_AZ c = false ->
  existsb (fun pattern => re_match pattern (String c rest)) header_patterns = false.
Proof.
  intros Hd Ha.
  unfold header_patterns, re_match, match_len, re_numbered_heading, re_caps_heading,
    re_title_heading, re_subnumbered_heading, Plus, cls_digit, cls_AZ.
  cbn [existsb rmatch]. now rewrite Hd, Ha.
Qed.

(** A header has at most 200 characters and, white space aside, starts with
    a digit or with a capital letter A-Z. *)
Theorem is_section_header_start (text : string) :
  is_section_header text = true ->
  len text <= 200
  /\ exists c rest,
       strip text = String c rest /\ (isdecimal c = true \/ is_AZ c = true).
Proof.
  unfold is_section_header.
  destruct (Nat.ltb_spec 200 (len text)) as [_ | Hlen]; [discriminate|].
  intros H. split; [exact Hlen|].
  destruct (strip text) as [|c rest]; [vm_compute in H; discriminate H|].
  exists c, rest. split; [reflexivity|].
  destruct (isdecimal c) eqn:Hd; [now left|].
  destruct (is_AZ c) eqn:Ha; [now right|].
  rewrite (header_patterns_first_char c rest Hd Ha) in H. discriminate H.
Qed.

Lemma is_section_header_start_witness :
  is_section_header "1. Introduction" = true
  /\ len "1. Introduction" <= 200.
Proof.
  split; [vm_compute; reflexivity|].
  apply (is_section_header_start "1. Introduction"). vm_compute. reflexivity.
Defined.

Lemma first_title_length (max_length : nat) (lines : list string) (line : string) :
  first_title max_length lines = Some line -> len line < max_length.
Proof.
  induction lines as [|l lines IH]; cbn [first_title]; [discriminate|].
  destruct (truthy (strip l) && (len (strip l) <? max_length)
            && looks_like_title (strip l)) eqn:Hb; [|exact IH].
  intros H. injection H as <-.
  apply andb_prop in Hb. destruct Hb as [Hb _].
  apply andb_prop in Hb. destruct Hb as [_ Hb]. now apply Nat.ltb_lt.
Qed.

Lemma len_take (n : nat) (s : string) : len (take n s) <= n.
Proof.
  revert s. induction n as [|n IH]; intros s; [destruct s; cbn; lia|].
  destruct s as [|c s]; cbn [take len String.length]; [lia|].
  specialize (IH s). unfold len in IH. lia.
Qed.

(** A title has at most [max_length + 3] characters: a line shorter than
    [max_length], or a first sentence cut to [max_length] characters with
    three dots. *)
Theorem extract_section_title_length (section_text : string) (max_length : nat) :
  len (extract_section_title section_text max_length) <= max_length + 3.
Proof.
  unfold extract_section_title.
  destruct (first_title max_length _) as [line|] eqn:Hline.
  - apply first_title_length in Hline. lia.
  - set (first_sentence := strip _).
    destruct (Nat.ltb_spec max_length (len first_sentence)) as [_ | Hle]; [|lia].
    rewrite len_append. pose proof (len_take max_length first_sentence).
    cbn [len String.length]. unfold len in *. lia.
Qed.

(** ** More on the relevance score *)

Lemma score_total_nonneg (text_lower : string) (keywords : list string)
    (weights : gmap string Z) (score : Q) :
  (forall k w, weights !! k = Some w -> (0 <= w)%Z) ->
  (0 <= score)%Q ->
  (0 <= fold_left (score_step text_lower weights) keywords score)%Q.
Proof.
  intros Hw. revert score. induction keywords as [|k keywords IH]; intros score Hs;
    [exact Hs|].
  cbn [fold_left]. apply IH. unfold score_step.
  destruct (0 <? count text_lower (lower k)); [|exact Hs].
  assert (Hk : (0 <= default 1 (weights !! k))%Z).
  { destruct (weights !! k) as [w|] eqn:Hlk; cbn; [now apply (Hw k) | lia]. }
  rewrite <- (Qplus_0_l 0). apply Qplus_le_compat; [exact Hs|].
  change 0%Q with (inject_Z 0). rewrite <- Zle_Qle. nia.
Qed.

Lemma round3_nonneg (q : Q) : (0 <= q)%Q -> (0 <= round3 q)%Q.
Proof.
  intros Hq. unfold round3, round_half_even.
  assert (Hf : (0 <= Qfloor (q * 1000))%Z).
  { change 0%Z with (Qfloor 0). apply Qfloor_resp_le.
    apply Qmult_le_0_compat; [exact Hq | discriminate]. }
  unfold Qle. cbn [Qnum Qden]. rewrite Z.mul_1_r, Z.mul_0_l.
  destruct (_ ?= _)%Q; [destruct (Z.even _)| |]; lia.
Qed.

Lemma divisor_positive (s : string) (n : positive) :
  truthy s = true -> (0 < inject_Z (Z.of_nat (len s)) / inject_Z (Zpos n))%Q.
Proof.
  destruct s as [|c s]; [discriminate|]. intros _.
  apply Qlt_shift_div_l; [reflexivity|]. rewrite Qmult_0_l.
  change 0%Q with (inject_Z 0). rewrite <- Zlt_Qlt. cbn [len String.length]. lia.
Qed.

(** The relevance score is not negative when no keyword has a negative
    weight. *)
Theorem relevance_score_nonneg (section_text : string) (keywords : list string)
    (weights : gmap string Z) :
  (forall k w, weights !! k = Some w -> (0 <= w)%Z) ->
  (0 <= calculate_relevance_score section_text keywords weights)%Q.
Proof.
  intros Hw. unfold calculate_relevance_score.
  destruct (truthy section_text) eqn:Htruthy; cbn [negb orb]; [|apply Qle_refl].
  destruct keywords as [|k keywords]; [apply Qle_refl|].
  apply round3_nonneg. apply Qle_shift_div_l.
  - exact (divisor_positive section_text 1000 Htruthy).
  - rewrite Qmult_0_l. unfold score_total.
    apply score_total_nonneg; [exact Hw | apply Qle_refl].
Qed.

Lemma relevance_score_nonneg_witness :
  (0 <= calculate_relevance_score section_2000 drug_keywords ∅)%Q.
Proof.
  apply (relevance_score_nonneg section_2000 drug_keywords ∅).
  intros k w H. rewrite lookup_empty in H. discriminate H.
Defined.

Lemma score_total_absent (text_lower : string) (keywords : list string)
    (weights : gmap string Z) (score : Q) :
  Forall (fun k => count text_lower (lower k) = 0) keywords ->
  fold_left (score_step text_lower weights) keywords score = score.
Proof.
  intros H. revert score. induction H as [|k keywords Hk _ IH]; intros score;
    [reflexivity|].
  cbn [fold_left]. unfold score_step at 2. rewrite Hk. cbn [Nat.ltb Nat.leb]. apply IH.
Qed.

(** A section in which no keyword occurs scores zero. *)
Theorem relevance_score_no_match (section_text : string) (keywords : list string)
    (weights : gmap string Z) :
  Forall (fun k => count (lower section_text) (lower k) = 0) keywords ->
  (calculate_relevance_score section_text keywords weights == 0)%Q.
Proof.
  intros H. unfold calculate_relevance_score.
  destruct (negb (truthy section_text) || _); [reflexivity|].
  unfold score_total. rewrite (score_total_absent _ _ _ _ H).
  unfold Qdiv at 1. generalize (/ (inject_Z (Z.of_nat (len section_text)) / 1000))%Q.
  intros [n m]. reflexivity.
Qed.

Lemma relevance_score_no_match_witness :
  Forall (fun k => count (lower section_2000) (lower k) = 0) ["protein"; "ligand"]
  /\ (calculate_relevance_score section_2000 ["protein"; "ligand"] drug_weights == 0)%Q.
Proof.
  split; [repeat constructor|].
  apply (relevance_score_no_match section_2000 ["protein"; "ligand"] drug_weights).
  repeat constructor.
Defined.

(** ** More on the ranking *)

Import SectionRanker.

Lemma enumerate_In {A : Type} (n i : nat) (x : A) (l : list A) :
  In (i, x) (enumerate n l) <-> n <= i /\ l !! (i - n) = Some x.
Proof.
  revert n. induction l as [|y l IH]; intros n; cbn [enumerate In].
  - split; [intros [] | intros [_ H]; discriminate H].
  - rewrite IH. split.
    + intros [H | [Hle H]].
      * injection H as <- <-. split; [lia|]. now rewrite Nat.sub_diag.
      * split; [lia|]. replace (i - n) with (S (i - S n)) by lia. exact H.
    + intros [Hle H]. destruct (Nat.eq_dec i n) as [-> | Hne].
      * left. rewrite Nat.sub_diag in H. cbn in H. now injection H as ->.
      * right. split; [lia|]. replace (i - n) with (S (i - S n)) in H by lia. exact H.
Qed.

Lemma map_lookup {A B : Type} (f : A -> B) (l : list A) (i : nat) (x : A) :
  l !! i = Some x -> map f l !! i = Some (f x).
Proof.
  revert i. induction l as [|y l IH]; intros i H; [discriminate|].
  destruct i as [|i]; cbn in *; [now injection H as -> | now apply IH].
Qed.

Lemma In_lookup {A : Type} (l : list A) (x : A) :
  In x l <-> exists i, l !! i = Some x.
Proof. rewrite <- list_elem_of_In. apply list_elem_of_lookup. Qed.

Lemma page_sections_entries (kw : keywords) (filename : string) (page_num : nat)
    (page_text : string) (s : section_data) :
  In s (page_sections kw filename (page_num, page_text))
  <-> exists idx text,
        split_into_sections page_text !! idx = Some text
        /\ min_section_length <= len text
        /\ s = {| document := filename;
                  page_number := page_num;
                  section_index := idx;
                  section_title := extract_section_title text 100;
                  section_text := text;
                  relevance_score :=
                    calculate_relevance_score text (combined_keywords kw)
                      (keyword_weights kw);
                  importance_rank := 0 |}.
Proof.
  unfold page_sections. rewrite in_flat_map. split.
  - intros ([idx text] & Hin & H). apply enumerate_In in Hin.
    destruct Hin as [_ Hin]. rewrite Nat.sub_0_r in Hin.
    destruct (Nat.ltb_spec (len text) min_section_length) as [_ | Hge];
      [contradiction|].
    destruct H as [<- | []]. now exists idx, text.
  - intros (idx & text & Hlk & Hge & ->). exists (idx, text). split.
    + apply enumerate_In. split; [lia|]. now rewrite Nat.sub_0_r.
    + destruct (Nat.ltb_spec (len text) min_section_length) as [Hlt | _];
        [lia | now left].
Qed.

(** The sections that are collected are the sections of at least 100
    characters of the pages of the documents. *)
Lemma collect_sections_entries (extracted_texts : list (string * list string))
    (kw : keywords) (s : section_data) :
  In s (collect_sections extracted_texts kw)
  <-> exists filename pages p page_text idx text,
        In (filename, pages) extracted_texts
        /\ pages !! p = Some page_text
        /\ split_into_sections page_text !! idx = Some text
        /\ min_section_length <= len text
        /\ s = {| document := filename;
                  page_number := S p;
                  section_index := idx;
                  section_title := extract_section_title text 100;
                  section_text := text;
                  relevance_score :=
                    calculate_relevance_score text (combined_keywords kw)
                      (keyword_weights kw);
                  importance_rank := 0 |}.
Proof.
  unfold collect_sections. rewrite in_flat_map. split.
  - intros ([filename pages] & Hdoc & H). apply in_flat_map in H.
    destruct H as ([page_num page_text] & Hpage & H).
    apply enumerate_In in Hpage. destruct Hpage as [Hle Hpage].
    apply page_sections_entries in H. destruct H as (idx & text & H1 & H2 & ->).
    exists filename, pages, (page_num - 1), page_text, idx, text.
    repeat split; try assumption. now replace (S (page_num - 1)) with page_num by lia.
  - intros (filename & pages & p & page_text & idx & text & Hdoc & Hp & H1 & H2 & ->).
    exists (filename, pages). split; [exact Hdoc|].
    apply in_flat_map. exists (S p, page_text). split.
    + apply enumerate_In. split; [lia|]. cbn. now rewrite Nat.sub_0_r.
    + apply page_sections_entries. now exists idx, text.
Qed.

Lemma assign_ranks_In (l : list section_data) (s : section_data) :
  In s (assign_ranks l)
  <-> exists i s0, l !! i = Some s0 /\ s = set_importance_rank (S i) s0.
Proof.
  split.
  - intros H. apply In_lookup in H. destruct H as [i H].
    apply assign_ranks_lookup in H. destruct H as (s0 & H1 & H2). now exists i, s0.
  - intros (i & s0 & Hi & ->). unfold assign_ranks. apply in_map_iff.
    exists (S i, s0). split; [reflexivity|].
    apply enumerate_In. split; [lia|]. cbn. now rewrite Nat.sub_0_r.
Qed.

(** Every entry of the ranking is a section of a page of a given document:
    its page number is the 1-based position of the page, its index the
    position of the section among the at most 5 of the page; it has at
    least 100 characters, its title and score are computed from its text,
    and its rank is its 1-based position in the ranking. *)
Theorem rank_sections_provenance (extracted_texts : list (string * list string))
    (kw : keywords) (i : nat) (s : section_data) :
  rank_sections extracted_texts kw !! i = Some s ->
  importance_rank s = S i
  /\ min_section_length <= len (section_text s)
  /\ section_index s < max_sections_per_page
  /\ section_title s = extract_section_title (section_text s) 100
  /\ relevance_score s
     = calculate_relevance_score (section_text s) (combined_keywords kw)
         (keyword_weights kw)
  /\ exists pages page_text,
       In (document s, pages) extracted_texts
       /\ 1 <= page_number s
       /\ pages !! (page_number s - 1) = Some page_text
       /\ split_into_sections page_text !! section_index s = Some (section_text s).
Proof.
  unfold rank_sections. intros H. apply assign_ranks_lookup in H.
  destruct H as (s0 & Hi & ->).
  assert (Hin : In s0 (collect_sections extracted_texts kw)).
  { apply (Permutation_in _ (sort_desc_perm score_lt _)). apply In_lookup.
    now exists i. }
  apply collect_sections_entries in Hin.
  destruct Hin as (filename & pages & p & page_text & idx & text
                   & Hdoc & Hp & Hsec & Hlen & ->).
  cbn [set_importance_rank importance_rank section_text section_index section_title
       relevance_score document page_number].
  repeat split; try assumption.
  - apply lookup_lt_Some in Hsec.
    pose proof (split_into_sections_shape page_text) as [Hmax _]. lia.
  - exists pages, page_text. repeat split; try assumption; [lia|].
    cbn. now rewrite Nat.sub_0_r.
Qed.

Lemma rank_sections_provenance_witness :
  rank_sections ranking_texts ranking_keywords !! 1 = Some ranked_second
  /\ importance_rank ranked_second = 2
  /\ min_section_length <= len (section_text ranked_second).
Proof.
  assert (H : rank_sections ranking_texts ranking_keywords !! 1 = Some ranked_second)
    by (vm_compute; reflexivity).
  split; [exact H|].
  destruct (rank_sections_provenance ranking_texts ranking_keywords 1 ranked_second H)
    as (H1 & H2 & _).
  split; assumption.
Defined.

(** No section of at least 100 characters is left out of the ranking. *)
Theorem rank_sections_complete (extracted_texts : list (string * list string))
    (kw : keywords) (filename : string) (pages : list string) (p idx : nat)
    (page_text text : string) :
  In (filename, pages) extracted_texts ->
  pages !! p = Some page_text ->
  split_into_sections page_text !! idx = Some text ->
  min_section_length <= len text ->
  exists s,
    In s (rank_sections extracted_texts kw)
    /\ document s = filename /\ page_number s = S p
    /\ section_index s = idx /\ section_text s = text.
Proof.
  intros Hdoc Hp Hsec Hlen.
  assert (Hin : In {| document := filename;
                      page_number := S p;
                      section_index := idx;
                      section_title := extract_section_title text 100;
                      section_text := text;
                      relevance_score :=
                        calculate_relevance_score text (combined_keywords kw)
                          (keyword_weights kw);
                      importance_rank := 0 |}
                   (collect_sections extracted_texts kw)).
  { apply collect_sections_entries.
    now exists filename, pages, p, page_text, idx, text. }
  apply (Permutation_in _ (Permutation_sym (sort_desc_perm score_lt _))) in Hin.
  apply In_lookup in Hin. destruct Hin as [i Hi].
  eexists. split.
  - unfold rank_sections. apply assign_ranks_In. exists i. eexists.
    split; [exact Hi | reflexivity].
  - cbn. auto.
Qed.

Lemma rank_sections_complete_witness :
  exists s,
    In s (rank_sections ranking_texts ranking_keywords)
    /\ document s = "b.pdf" /\ page_number s = 1
    /\ section_index s = 0
    /\ section_text s = "neural " +:+ repeat_char 120 "c".
Proof.
  apply (rank_sections_complete ranking_texts ranking_keywords "b.pdf"
           ["neural " +:+ repeat_char 120 "c"] 0 0
           ("neural " +:+ repeat_char 120 "c")).
  - right. left. reflexivity.
  - reflexivity.
  - vm_compute. reflexivity.
  - vm_compute. lia.
Defined.

Lemma qualifying_page_bound (pages : list string) :
  length
    (flat_map
       (fun page_text =>
          List.filter (fun text => min_section_length <=? len text)
            (split_into_sections page_text))
       pages)
  <= max_sections_per_page * length pages.
Proof.
  induction pages as [|page pages IH]; cbn [flat_map length]; [lia|].
  rewrite length_app.
  pose proof (filter_length_le (fun text => min_section_length <=? len text)
                (split_into_sections page)).
  pose proof (split_into_sections_shape page) as [Hmax _]. lia.
Qed.

(** The ranking has at most 5 entries per page. *)
Theorem rank_sections_bound (extracted_texts : list (string * list string))
    (kw : keywords) :
  length (rank_sections extracted_texts kw)
  <= max_sections_per_page
     * list_sum (map (fun doc => length (snd doc)) extracted_texts).
Proof.
  unfold rank_sections.
  rewrite assign_ranks_length, sort_desc_length, collect_sections_length.
  unfold qualifying_sections.
  induction extracted_texts as [|[filename pages] texts IH]; [cbn; lia|].
  cbn [flat_map map list_sum fold_right snd]. rewrite length_app.
  pose proof (qualifying_page_bound pages). unfold list_sum in IH. lia.
Qed.

Lemma sort_desc_equal_keys {A : Type} (lt : A -> A -> bool) (l : list A) :
  (forall x y, In x l -> In y l -> lt x y = false) -> sort_desc lt l = l.
Proof.
  induction l as [|x l IH]; intros H; [reflexivity|].
  cbn [sort_desc]. rewrite IH by (intros a b Ha Hb; apply H; now right).
  destruct l as [|y l]; [reflexivity|]. cbn [insert_desc].
  now rewrite (H x y) by (cbn; auto).
Qed.

(** Without keywords every score is 0.0 and the ranking is the order of
    discovery: documents in the order given, then pages, then sections. *)
Theorem rank_sections_no_keywords (extracted_texts : list (string * list string))
    (kw : keywords) :
  combined_keywords kw = [] ->
  rank_sections extracted_texts kw
  = assign_ranks (collect_sections extracted_texts kw)
  /\ Forall (fun s => relevance_score s = 0%Q) (rank_sections extracted_texts kw).
Proof.
  intros Hkw.
  assert (Hzero : forall s, In s (collect_sections extracted_texts kw) ->
                    relevance_score s = 0%Q).
  { intros s Hs. apply collect_sections_entries in Hs.
    destruct Hs as (? & ? & ? & ? & ? & text & _ & _ & _ & _ & ->).
    cbn [relevance_score]. unfold calculate_relevance_score.
    now rewrite Hkw, orb_true_r. }
  assert (Heq : rank_sections extracted_texts kw
                = assign_ranks (collect_sections extracted_texts kw)).
  { unfold rank_sections. f_equal. apply sort_desc_equal_keys.
    intros x y Hx Hy. unfold score_lt. now rewrite (Hzero x Hx), (Hzero y Hy). }
  split; [exact Heq|]. rewrite Heq.
  apply List.Forall_forall. intros s Hs. apply assign_ranks_In in Hs.
  destruct Hs as (i & s0 & Hi & ->). cbn [set_importance_rank relevance_score].
  apply Hzero. apply In_lookup. now exists i.
Qed.

Lemma rank_sections_no_keywords_witness :
  rank_sections ranking_texts
    {| persona_keywords := []; job_keywords := []; combined_keywords := [];
       keyword_weights := ∅ |}
  = assign_ranks
      (collect_sections ranking_texts
         {| persona_keywords := []; job_keywords := []; combined_keywords := [];
            keyword_weights := ∅ |}).
Proof.
  apply (rank_sections_no_keywords ranking_texts
           {| persona_keywords := []; job_keywords := []; combined_keywords := [];
              keyword_weights := ∅ |}).
  reflexivity.
Defined.

Lemma discovered_before_distinct (extracted_texts : list (string * list string))
    (a b : section_data) :
  List.NoDup (map fst extracted_texts) ->
  discovered_before extracted_texts a b ->
  ~ (document a = document b /\ page_number a = page_number b
     /\ section_index a = section_index b).
Proof.
  intros Hnd (i & j & pa & pb & Hi & Hj & Hord) (Hd & Hp & Hx).
  apply (map_lookup fst) in Hi, Hj. cbn [fst] in Hi, Hj. rewrite Hd in Hi.
  apply NoDup_ListNoDup in Hnd.
  pose proof (NoDup_lookup _ _ _ _ Hnd Hi Hj) as Hij. lia.
Qed.

(** When the document names are distinct, no two entries of the ranking
    have the same document, page number and section index. *)
Theorem rank_sections_distinct_entries
    (extracted_texts : list (string * list string)) (kw : keywords)
    (i j : nat) (a b : section_data) :
  List.NoDup (map fst extracted_texts) ->
  rank_sections extracted_texts kw !! i = Some a ->
  rank_sections extracted_texts kw !! j = Some b ->
  document a = document b ->
  page_number a = page_number b ->
  section_index a = section_index b ->
  i = j.
Proof.
  unfold rank_sections. intros Hnd Ha Hb Hd Hp Hx.
  apply assign_ranks_lookup in Ha, Hb.
  destruct Ha as (a0 & Ha & ->), Hb as (b0 & Hb & ->).
  cbn [set_importance_rank document page_number section_index] in Hd, Hp, Hx.
  pose proof (sort_desc_perm score_lt (collect_sections extracted_texts kw)) as Hperm.
  apply Permutation_inj in Hperm. destruct Hperm as (_ & f & Hinj & Hf).
  rewrite Hf in Ha, Hb.
  destruct (Nat.lt_trichotomy (f i) (f j)) as [Hlt | [Heq | Hgt]].
  - exfalso.
    pose proof (occurs_before_lookup _ _ _ _ _ Ha Hb Hlt) as Hord.
    apply collect_sections_order in Hord.
    now apply (discovered_before_distinct _ _ _ Hnd Hord).
  - now apply Hinj.
  - exfalso.
    pose proof (occurs_before_lookup _ _ _ _ _ Hb Ha Hgt) as Hord.
    apply collect_sections_order in Hord.
    apply (discovered_before_distinct _ _ _ Hnd Hord). auto.
Qed.

Lemma rank_sections_distinct_entries_witness :
  List.NoDup (map fst ranking_texts)
  /\ rank_sections ranking_texts ranking_keywords !! 1 = Some ranked_second
  /\ 1 = 1.
Proof.
  assert (Hnd : List.NoDup (map fst ranking_texts)).
  { cbn. repeat constructor; cbn; intuition discriminate. }
  assert (H : rank_sections ranking_texts ranking_keywords !! 1 = Some ranked_second)
    by (vm_compute; reflexivity).
  split; [exact Hnd|]. split; [exact H|].
  exact (rank_sections_distinct_entries ranking_texts ranking_keywords 1 1
           ranked_second ranked_second Hnd H H eq_refl eq_refl eq_refl).
Defined.

(** ** More on sentences and summaries *)

Import SubsectionAnalyzer.

Lemma keyword_sum_nonneg (sentence_lower : string) (keywords : list string) (score : Q) :
  (0 <= score)%Q ->
  (0 <= fold_left
          (fun score keyword =>
             if keyword_present sentence_lower keyword
             then (score + inject_Z (Z.of_nat (len keyword)))%Q
             else score)
          keywords score)%Q.
Proof.
  revert score. induction keywords as [|k keywords IH]; intros score Hs; [exact Hs|].
  cbn [fold_left]. apply IH.
  destruct (keyword_present sentence_lower k); [|exact Hs].
  rewrite <- (Qplus_0_l 0). apply Qplus_le_compat; [exact Hs|].
  change 0%Q with (inject_Z 0). rewrite <- Zle_Qle. lia.
Qed.

Lemma keyword_sum_absent (sentence_lower : string) (keywords : list string) (score : Q) :
  Forall (fun k => keyword_present sentence_lower k = false) keywords ->
  fold_left
    (fun score keyword =>
       if keyword_present sentence_lower keyword
       then (score + inject_Z (Z.of_nat (len keyword)))%Q
       else score)
    keywords score = score.
Proof.
  intros H. revert score. induction H as [|k keywords Hk _ IH]; intros score;
    [reflexivity|].
  cbn [fold_left]. rewrite Hk. apply IH.
Qed.

Lemma filter_none {A : Type} (p : A -> bool) (l : list A) :
  Forall (fun x => p x = false) l -> List.filter p l = [].
Proof.
  induction 1 as [|x l Hx _ IH]; [reflexivity|]. cbn. now rewrite Hx.
Qed.

(** A sentence score is never negative, and it is zero when no keyword is
    present in the sentence. *)
Theorem score_sentence_range (sentence : string) (keywords : list string) :
  (0 <= score_sentence sentence keywords)%Q
  /\ (Forall (fun k => keyword_present (lower sentence) k = false) keywords ->
      (score_sentence sentence keywords == 0)%Q).
Proof.
  unfold score_sentence.
  destruct (truthy sentence) eqn:Htruthy; cbn [negb orb];
    [|split; [apply Qle_refl | reflexivity]].
  destruct keywords as [|k keywords]; [split; [apply Qle_refl | reflexivity]|].
  set (kws := k :: keywords). cbv zeta. split.
  - apply Qle_shift_div_l; [exact (divisor_positive sentence 100 Htruthy)|].
    rewrite Qmult_0_l.
    pose proof (keyword_sum_nonneg (lower sentence) kws 0 (Qle_refl 0)) as Hsum.
    destruct (1 <? length (List.filter (keyword_present (lower sentence)) kws));
      [|exact Hsum].
    apply Qmult_le_0_compat; [exact Hsum|].
    rewrite <- (Qplus_0_l 0). apply Qplus_le_compat; [discriminate|].
    apply Qmult_le_0_compat; [|discriminate].
    change 0%Q with (inject_Z 0). rewrite <- Zle_Qle. lia.
  - intros Habsent.
    rewrite (keyword_sum_absent _ _ _ Habsent), (filter_none _ _ Habsent).
    cbn [length Nat.ltb Nat.leb]. unfold Qdiv. apply Qmult_0_l.
Qed.

Lemma filter_sublist {A : Type} (p : A -> bool) (l : list A) :
  sublist (List.filter p l) l.
Proof.
  induction l as [|x l IH]; cbn; [constructor|].
  destruct (p x); now constructor.
Qed.

Lemma filter_length_perm {A : Type} (p : A -> bool) (l l' : list A) :
  Permutation l l' -> length (List.filter p l) = length (List.filter p l').
Proof.
  induction 1 as [|x l l' _ IH|x y l|l l' l'' _ IH1 _ IH2]; cbn.
  - reflexivity.
  - destruct (p x); cbn; now rewrite IH.
  - destruct (p x), (p y); reflexivity.
  - now rewrite IH1.
Qed.

(** The summary of a text with more than three sentences is made of
    sentences of the text, in the order of the text, joined by single
    spaces: at least three of them, each longer than 20 characters. *)
Theorem summary_sentences_of_text (text : string) (keywords : list string) :
  3 < length (split_sentences text) ->
  exists picked,
    generate_extractive_summary text keywords = join " " picked
    /\ sublist picked (split_sentences text)
    /\ 3 <= length picked
    /\ Forall (fun sentence => 20 < len sentence) picked.
Proof.
  intros Hlong.
  set (sentences := split_sentences text) in *.
  set (scored := map (fun sentence => (sentence, score_sentence sentence keywords))
                   sentences).
  set (sorted := sort_desc sentence_score_lt scored).
  set (selected := map fst (firstn 3 sorted)).
  set (p := fun sentence => existsb (String.eqb sentence) selected).
  exists (List.filter p sentences).
  assert (Hkeys : Permutation (map fst sorted) sentences).
  { transitivity (map fst scored).
    - apply Permutation_map, sort_desc_perm.
    - unfold scored. rewrite map_map. cbn [fst]. now rewrite map_id. }
  split; [|split; [apply filter_sublist | split]].
  - unfold generate_extractive_summary.
    destruct text as [|c text]; [cbn in Hlong; lia|].
    cbn [truthy negb]. fold sentences.
    destruct (Nat.leb_spec (length sentences) summary_sentences) as [Hle | _];
      [unfold summary_sentences in Hle; lia | reflexivity].
  - rewrite <- (filter_length_perm p _ _ Hkeys).
    assert (Hsplit : map fst sorted = selected ++ map fst (skipn 3 sorted)).
    { unfold selected. now rewrite <- map_app, firstn_skipn. }
    rewrite Hsplit, List.filter_app, length_app, filter_all.
    + assert (Hsel : length selected = 3); [|lia].
      unfold selected. rewrite length_map, length_firstn. unfold sorted.
      rewrite sort_desc_length. unfold scored. rewrite length_map. lia.
    + apply List.Forall_forall. intros x Hx. unfold p.
      apply existsb_exists. exists x. split; [exact Hx | apply String.eqb_refl].
  - apply List.Forall_forall. intros sentence Hin.
    apply List.filter_In in Hin. destruct Hin as [Hin _].
    unfold sentences, split_sentences in Hin.
    apply List.filter_In in Hin. destruct Hin as [_ Hlen]. now apply Nat.ltb_lt.
Qed.

Lemma summary_sentences_of_text_witness :
  3 < length (split_sentences repeated_sentence_text)
  /\ exists picked,
       generate_extractive_summary repeated_sentence_text ["neural"] = join " " picked
       /\ sublist picked (split_sentences repeated_sentence_text)
       /\ 3 <= length picked
       /\ Forall (fun sentence => 20 < len sentence) picked.
Proof.
  split; [vm_compute; lia|].
  apply (summary_sentences_of_text repeated_sentence_text ["neural"]).
  vm_compute. lia.
Defined.

(** ** Keyword weights *)

Lemma count_occ_NoDup (l : list string) (k : string) :
  List.NoDup l -> count_occ string_dec l k = if in_dec string_dec k l then 1 else 0.
Proof.
  intros Hnd. destruct (in_dec string_dec k l) as [Hin | Hout].
  - rewrite (List.NoDup_count_occ string_dec) in Hnd. specialize (Hnd k).
    apply (count_occ_In string_dec) in Hin. lia.
  - now apply (count_occ_not_In string_dec).
Qed.

Lemma extract_from_text_NoDup
    (stopwords_english : option (list string))
    (word_tokenize : string -> option (list string))
    (pos_tag : list string -> option (list (string * string)))
    (list_set : list string -> list string) (text : string) :
  set_iteration list_set ->
  List.NoDup (extract_from_text stopwords_english word_tokenize pos_tag list_set text).
Proof.
  intros Hset. unfold extract_from_text.
  destruct (negb (truthy text)); [constructor | apply Hset].
Qed.

(** When [list(set(...))] returns each element once, a keyword that the
    persona and the task both give has weight 2, any other keyword has
    weight 1, and a string that neither gives has no weight. *)
Theorem keyword_weights_one_or_two
    (stopwords_english : option (list string))
    (word_tokenize : string -> option (list string))
    (pos_tag : list string -> option (list (string * string)))
    (list_set : list string -> list string)
    (persona job_to_be_done k : string) :
  set_iteration list_set ->
  let kw := extract_keywords stopwords_english word_tokenize pos_tag list_set
              persona job_to_be_done in
  keyword_weights kw !! k
  = match in_dec string_dec k (persona_keywords kw),
          in_dec string_dec k (job_keywords kw) with
    | left _, left _ => Some 2%Z
    | left _, right _ => Some 1%Z
    | right _, left _ => Some 1%Z
    | right _, right _ => None
    end.
Proof.
  intros Hset. cbn zeta. unfold extract_keywords.
  cbn [keyword_weights persona_keywords job_keywords].
  set (pk := extract_from_text stopwords_english word_tokenize pos_tag list_set persona).
  set (jk := extract_from_text stopwords_english word_tokenize pos_tag list_set
               job_to_be_done).
  assert (Hpk : List.NoDup pk) by now apply extract_from_text_NoDup.
  assert (Hjk : List.NoDup jk) by now apply extract_from_text_NoDup.
  assert (Hcount : count_occ string_dec (pk ++ jk) k
                   = (if in_dec string_dec k pk then 1 else 0)
                     + (if in_dec string_dec k jk then 1 else 0)).
  { now rewrite count_occ_app, !count_occ_NoDup. }
  destruct (in_dec string_dec k pk) as [Hp | Hp], (in_dec string_dec k jk) as [Hj | Hj].
  - rewrite list_to_map_Counter by (apply in_or_app; now left). now rewrite Hcount.
  - rewrite list_to_map_Counter by (apply in_or_app; now left). now rewrite Hcount.
  - rewrite list_to_map_Counter by (apply in_or_app; now right). now rewrite Hcount.
  - apply not_elem_of_list_to_map_1. intros Hk.
    apply list_elem_of_fmap in Hk. destruct Hk as ([k' n] & -> & Hin).
    apply list_elem_of_In in Hin. apply (in_map fst) in Hin.
    apply -> Counter_keys_In in Hin. cbn [fst] in Hin.
    apply in_app_or in Hin. tauto.
Qed.

Lemma keyword_weights_one_or_two_witness :
  set_iteration reversed_set
  /\ keyword_weights
       (extract_keywords None no_tokenizer no_tagger reversed_set
          "alpha beta" "beta gamma") !! "beta" = Some 2%Z.
Proof.
  split; [exact reversed_set_iteration|].
  rewrite (keyword_weights_one_or_two None no_tokenizer no_tagger reversed_set
             "alpha beta" "beta gamma" "beta" reversed_set_iteration).
  vm_compute. reflexivity.
Defined.

(** ** The formatted result *)

Lemma split_char_nonempty (sep : ascii) (s : string) : split_char sep s <> [].
Proof.
  destruct s as [|c s]; cbn [split_char]; [discriminate|].
  destruct (Ascii.eqb c sep); [discriminate|]. now destruct (split_char sep s).
Qed.

Lemma endswith_cons (p s : string) (c : ascii) :
  endswith p s = true -> endswith p (String c s) = true.
Proof. intros H. cbn [endswith]. now rewrite H, orb_true_r. Qed.

Lemma endswith_refl (s : string) : endswith s s = true.
Proof. destruct s; cbn [endswith]; now rewrite String.eqb_refl. Qed.

Lemma split_char_single (sep : ascii) (s x : string) :
  split_char sep s = [x] -> x = s.
Proof.
  revert x. induction s as [|c s IH]; intros x; cbn [split_char].
  - now intros [= <-].
  - pose proof (split_char_nonempty sep s) as Hne.
    destruct (Ascii.eqb c sep).
    + intros [= _ H]. contradiction.
    + destruct (split_char sep s) as [|p ps]; [contradiction|].
      intros [= <- ->]. now rewrite (IH p eq_refl).
Qed.

Lemma last_split_char (sep : ascii) (s : string) :
  endswith (List.last (split_char sep s) EmptyString) s = true
  /\ (lacks sep s = true -> List.last (split_char sep s) EmptyString = s).
Proof.
  split; [|intros H; now rewrite split_char_whole].
  induction s as [|c s IH]; [reflexivity|].
  cbn [split_char]. pose proof (split_char_nonempty sep s) as Hne.
  pose proof (split_char_single sep s) as Hsingle.
  destruct (Ascii.eqb c sep).
  - apply endswith_cons.
    destruct (split_char sep s) as [|x l]; [contradiction | exact IH].
  - destruct (split_char sep s) as [|x [|y l]]; [contradiction | |].
    + rewrite (Hsingle x eq_refl). apply endswith_refl.
    + apply endswith_cons. exact IH.
Qed.

(** The document name that is reported holds no slash; it is the end of the
    path, and the whole path when the path holds no slash. *)
Theorem doc_name_of_path (pdf_file : string) :
  lacks "/" (OutputFormatter.doc_name pdf_file) = true
  /\ endswith (OutputFormatter.doc_name pdf_file) pdf_file = true
  /\ (lacks "/" pdf_file = true -> OutputFormatter.doc_name pdf_file = pdf_file).
Proof.
  unfold OutputFormatter.doc_name.
  destruct (last_split_char "/" pdf_file) as [H1 H2].
  split; [|split; assumption].
  pose proof (split_char_lacks "/" pdf_file) as Hl.
  pose proof (split_char_nonempty "/" pdf_file) as Hne.
  rewrite List.Forall_forall in Hl. apply Hl.
  destruct (split_char "/" pdf_file) as [|x l]; [contradiction|].
  destruct (exists_last (l := x :: l)) as (l' & y & Heq); [discriminate|].
  rewrite Heq, last_last. apply in_or_app. right. now left.
Qed.

(** ** The whole run *)

Import SectionRanker.

Lemma extract_all_entries (page_texts : string -> option (list string))
    (path_name : string -> string) (pdf_files : list string)
    (name : string) (pages : list string) :
  In (name, pages) (extract_all page_texts path_name pdf_files) ->
  exists pdf_file,
    In pdf_file pdf_files /\ name = path_name pdf_file
    /\ pages = extract_text page_texts pdf_file.
Proof.
  induction pdf_files as [|f files IH] using rev_ind; [intros []|].
  rewrite extract_all_snoc. intros H.
  apply dict_set_In in H; [|apply extract_all_keys_NoDup].
  destruct H as [[-> ->] | [_ H]].
  - exists f. split; [apply in_or_app; right; now left | now split].
  - destruct (IH H) as (g & Hg & H1 & H2). exists g.
    split; [apply in_or_app; now left | now split].
Qed.

(** Ranking what the extractor returns: every entry comes from a cleaned
    page of at least 100 characters, and when the page has at most 1000
    characters the entry is the whole page, with section index 0. *)
Theorem rank_sections_of_extracted_pages
    (page_texts : string -> option (list string)) (path_name : string -> string)
    (pdf_files : list string) (kw : keywords) (i : nat) (s : section_data) :
  rank_sections (extract_all page_texts path_name pdf_files) kw !! i = Some s ->
  exists pdf_file page_text,
    In pdf_file pdf_files
    /\ document s = path_name pdf_file
    /\ extract_text page_texts pdf_file !! (page_number s - 1) = Some page_text
    /\ clean_text page_text = page_text
    /\ 100 <= len page_text
    /\ (len page_text <= 1000 -> section_text s = page_text /\ section_index s = 0).
Proof.
  intros H.
  unfold rank_sections in H. apply assign_ranks_lookup in H.
  destruct H as (s0 & Hi & ->).
  assert (Hin : In s0 (collect_sections (extract_all page_texts path_name pdf_files) kw)).
  { apply (Permutation_in _ (sort_desc_perm score_lt _)). apply In_lookup.
    now exists i. }
  apply collect_sections_entries in Hin.
  destruct Hin as (filename & pages & p & page_text & idx & text
                   & Hdoc & Hp & Hsec & Hlen & ->).
  cbn [set_importance_rank document page_number section_text section_index].
  apply extract_all_entries in Hdoc. destruct Hdoc as (f & Hf & -> & ->).
  exists f, page_text. split; [exact Hf|]. split; [reflexivity|].
  replace (S p - 1) with p by lia. split; [exact Hp|].
  assert (Hpage : In page_text (extract_text page_texts f))
    by (apply In_lookup; now exists p).
  unfold extract_text in Hpage. destruct (page_texts f) as [raw_pages|]; [|destruct Hpage].
  apply List.filter_In in Hpage. destruct Hpage as [Hpage Htruthy].
  apply in_map_iff in Hpage. destruct Hpage as (raw & <- & _).
  assert (Hne : clean_text raw <> EmptyString)
    by (intros Heq; rewrite Heq in Htruthy; discriminate).
  split; [apply clean_text_idempotent_aux|].
  split; [now destruct (clean_text_shape raw Hne) as (_ & _ & H & _)|].
  intros Hshort.
  destruct (clean_text_shape raw Hne) as (Heq & Hnil & _ & Hshape).
  destruct (join_shape _ Hnil Hshape) as (Hs & He & Ht).
  rewrite <- Heq in Hs, He, Ht.
  rewrite (tight_page_sections _ Hs He Ht) in Hsec.
  destruct (Nat.ltb_spec 1000 (len (clean_text raw))) as [Hgt | _]; [lia|].
  destruct idx as [|idx]; [|discriminate Hsec].
  cbn in Hsec. injection Hsec as <-. now split.
Qed.

Lemma rank_sections_ranks_aux (extracted_texts : list (string * list string))
    (kw : keywords) :
  map importance_rank (rank_sections extracted_texts kw)
  = seq 1 (length (rank_sections extracted_texts kw)).
Proof.
  unfold rank_sections. now rewrite assign_ranks_ranks, assign_ranks_length.
Qed.

Lemma firstn_seq (n start len : nat) :
  firstn n (seq start len) = seq start (Nat.min n len).
Proof.
  revert start len. induction n as [|n IH]; intros start len; [reflexivity|].
  destruct len as [|len]; [reflexivity|]. cbn. now rewrite IH.
Qed.

(** The result of a run: at most 10 sections are reported, with ranks 1, 2,
    ... in this order; there is one analysed subsection per reported
    section, at the same position and for the same document and page; the
    metadata holds one document name per path, the persona and the job as
    given, and the rounded processing time. *)
Theorem process_documents_result
    (page_texts : string -> option (list string)) (path_name : string -> string)
    (stopwords_english : option (list string))
    (word_tokenize : string -> option (list string))
    (pos_tag : list string -> option (list (string * string)))
    (list_set : list string -> list string) (processing_time : Q)
    (pdf_files : list string) (persona job_to_be_done : string) :
  let result :=
    DocumentIntelligenceSystem.process_documents page_texts path_name
      stopwords_english word_tokenize pos_tag list_set processing_time
      pdf_files persona job_to_be_done in
  let ranked_sections :=
    rank_sections (extract_all page_texts path_name pdf_files)
      (extract_keywords stopwords_english word_tokenize pos_tag list_set
         persona job_to_be_done) in
  let reported := OutputFormatter.extracted_sections result in
  let analysed := OutputFormatter.subsection_analysis result in
  length reported = Nat.min 10 (length ranked_sections)
  /\ map OutputFormatter.importance_rank reported = seq 1 (length reported)
  /\ length analysed = length reported
  /\ (forall i section subsection,
        reported !! i = Some section -> analysed !! i = Some subsection ->
        OutputFormatter.analysis_document subsection
        = OutputFormatter.document section
        /\ OutputFormatter.analysis_page_number subsection
           = OutputFormatter.page_number section)
  /\ OutputFormatter.input_documents (OutputFormatter.metadata result)
     = map OutputFormatter.doc_name pdf_files
  /\ OutputFormatter.persona (OutputFormatter.metadata result) = persona
  /\ OutputFormatter.job_to_be_done (OutputFormatter.metadata result) = job_to_be_done
  /\ OutputFormatter.processing_time_seconds (OutputFormatter.metadata result)
     = Some (DocumentIntelligenceSystem.round2 processing_time).
Proof.
  intros result ranked_sections reported analysed.
  subst result reported analysed.
  unfold DocumentIntelligenceSystem.process_documents,
    DocumentIntelligenceSystem.set_processing_time, OutputFormatter.format_output,
    analyze_subsections.
  fold ranked_sections.
  cbn [OutputFormatter.extracted_sections OutputFormatter.subsection_analysis
       OutputFormatter.metadata OutputFormatter.input_documents
       OutputFormatter.persona OutputFormatter.job_to_be_done
       OutputFormatter.processing_time_seconds].
  rewrite !length_map, length_firstn.
  split; [reflexivity|]. split; [|split; [reflexivity|]].
  - rewrite map_map.
    transitivity (map importance_rank (firstn 10 ranked_sections));
      [apply map_ext; reflexivity|].
    rewrite <- firstn_map.
    pose proof (rank_sections_ranks_aux (extract_all page_texts path_name pdf_files)
                  (extract_keywords stopwords_english word_tokenize pos_tag list_set
                     persona job_to_be_done)) as Hranks.
    fold ranked_sections in Hranks. rewrite Hranks. apply firstn_seq.
  - split; [|repeat split].
    intros i section subsection Hsec Hsub.
    rewrite map_map in Hsub.
    destruct (firstn 10 ranked_sections !! i) as [s|] eqn:Hs.
    + rewrite (map_lookup _ _ _ _ Hs) in Hsec. rewrite (map_lookup _ _ _ _ Hs) in Hsub.
      injection Hsec as <-. injection Hsub as <-. now split.
    + apply lookup_ge_None in Hs. apply lookup_lt_Some in Hsec.
      rewrite length_map in Hsec. lia.
Qed.

(** ** Keywords of a text *)

Lemma lower_c_idempotent (c : ascii) : lower_c (lower_c c) = lower_c c.
Proof. destruct c as [[] [] [] [] [] [] [] []]; reflexivity. Qed.

Lemma lower_idempotent (s : string) : lower (lower s) = lower s.
Proof.
  induction s as [|c s IH]; [reflexivity|].
  cbn [lower]. now rewrite lower_c_idempotent, IH.
Qed.

(** The phrases of a text are in lower case, and no phrase is returned
    twice when [list(set(...))] returns each element once. *)
Theorem extract_bigrams_lower (list_set : list string -> list string) (text : string) :
  set_iteration list_set ->
  List.NoDup (extract_bigrams list_set text)
  /\ Forall (fun phrase => lower phrase = phrase) (extract_bigrams list_set text).
Proof.
  intros Hset. unfold extract_bigrams. split; [apply Hset|].
  apply List.Forall_forall. intros phrase Hin.
  apply (proj1 (proj2 (Hset _) _)) in Hin. apply in_flat_map in Hin. destruct Hin as (pattern & _ & Hin).
  apply in_map_iff in Hin. destruct Hin as (m & <- & _). apply lower_idempotent.
Qed.

Lemma extract_bigrams_lower_witness :
  set_iteration reversed_set
  /\ Forall (fun phrase => lower phrase = phrase)
       (extract_bigrams reversed_set "Machine Learning for Drug Discovery").
Proof.
  split; [exact reversed_set_iteration|].
  apply (extract_bigrams_lower reversed_set "Machine Learning for Drug Discovery").
  exact reversed_set_iteration.
Defined.

Lemma existsb_eqb_false (k : string) (l : list string) :
  existsb (String.eqb k) l = false -> ~ In k l.
Proof.
  intros H Hin. assert (Ht : existsb (String.eqb k) l = true); [|congruence].
  apply existsb_exists. exists k. split; [exact Hin | apply String.eqb_refl].
Qed.

(** A keyword of a text is a phrase, or a token of more than 2 characters,
    all of them letters or digits, that is not a stop word; in particular
    never one of the domain stop words.  The tagger is assumed to return
    words among the tokens it is given. *)
Theorem extract_from_text_keywords
    (stopwords_english : option (list string))
    (word_tokenize : string -> option (list string))
    (pos_tag : list string -> option (list (string * string)))
    (list_set : list string -> list string) (text k : string) :
  set_iteration list_set ->
  (forall tokens pos_tags,
     pos_tag tokens = Some pos_tags -> incl (map fst pos_tags) tokens) ->
  In k (extract_from_text stopwords_english word_tokenize pos_tag list_set text) ->
  In k (extract_bigrams list_set text)
  \/ (isalnum k = true /\ 2 < len k
      /\ is_stop_word stopwords_english k = false
      /\ ~ In k domain_stop_words).
Proof.
  intros Hset Htag Hin. unfold extract_from_text in Hin.
  destruct (negb (truthy text)); [destruct Hin|].
  apply (proj1 (proj2 (Hset _) _)) in Hin. unfold candidate_keywords in Hin.
  apply in_app_or in Hin. destruct Hin as [Hin | Hin]; [right | now left].
  set (raw := match word_tokenize (lower text) with
              | Some tokens => tokens
              | None => re_findall re_word (lower text)
              end) in Hin.
  set (tokens := List.filter (fun token => negb (is_stop_word stopwords_english token))
                   (List.filter (fun token => isalnum token && (2 <? len token)) raw))
    in Hin.
  assert (Htoken : In k tokens).
  { destruct (pos_tag tokens) as [pos_tags|] eqn:Hpos; [|exact Hin].
    apply (Htag tokens pos_tags Hpos).
    apply in_map_iff in Hin. destruct Hin as ([w pos] & <- & Hin).
    apply List.filter_In in Hin. destruct Hin as [Hin _].
    now apply (in_map fst) in Hin. }
  unfold tokens in Htoken.
  apply List.filter_In in Htoken. destruct Htoken as [Htoken Hstop].
  apply List.filter_In in Htoken. destruct Htoken as [_ Hshape].
  apply andb_prop in Hshape. destruct Hshape as [Halnum Hlen].
  apply Nat.ltb_lt in Hlen. apply negb_true_iff in Hstop.
  repeat split; try assumption.
  intros Hdomain. apply (existsb_eqb_false k (stop_words stopwords_english)).
  - exact Hstop.
  - unfold stop_words. apply in_or_app. now right.
Qed.

Lemma extract_from_text_keywords_witness :
  set_iteration reversed_set
  /\ In "alpha" (extract_from_text None no_tokenizer no_tagger reversed_set "alpha beta")
  /\ (In "alpha" (extract_bigrams reversed_set "alpha beta")
      \/ (isalnum "alpha" = true /\ 2 < len "alpha"
          /\ is_stop_word None "alpha" = false
          /\ ~ In "alpha" domain_stop_words)).
Proof.
  assert (Hin : In "alpha"
                  (extract_from_text None no_tokenizer no_tagger reversed_set
                     "alpha beta"))
    by (vm_compute; auto).
  split; [exact reversed_set_iteration|]. split; [exact Hin|].
  apply (extract_from_text_keywords None no_tokenizer no_tagger reversed_set
           "alpha beta" "alpha" reversed_set_iteration);
    [intros tokens pos_tags H; discriminate H | exact Hin].
Defined.

(** ** Witnesses on concrete documents *)

Import PipelineExamples.

Lemma raw_page_cleaned : clean_text raw_page <> EmptyString.
Proof. vm_compute. discriminate. Qed.

Lemma clean_text_lines_witness :
  clean_text raw_page <> EmptyString
  /\ Forall (fun line => 3 < len line /\ strip line = line)
       (split_char newline (clean_text raw_page)).
Proof.
  split; [exact raw_page_cleaned|].
  apply (clean_text_lines raw_page). exact raw_page_cleaned.
Defined.

Lemma split_into_sections_tight_witness :
  starts_nonspace two_lines = true
  /\ ends_nonspace two_lines = true
  /\ lines_tight two_lines = true
  /\ split_into_sections two_lines = [two_lines].
Proof.
  split; [reflexivity|]. split; [reflexivity|]. split; [reflexivity|].
  rewrite (split_into_sections_tight two_lines eq_refl eq_refl eq_refl).
  reflexivity.
Defined.

Lemma split_into_sections_cleaned_witness :
  clean_text raw_page <> EmptyString
  /\ split_into_sections (clean_text raw_page) = [clean_text raw_page].
Proof.
  split; [exact raw_page_cleaned|].
  rewrite (split_into_sections_cleaned raw_page raw_page_cleaned).
  vm_compute. reflexivity.
Defined.

Lemma rank_sections_of_extracted_pages_witness :
  exists s,
    rank_sections (extract_all one_page OutputFormatter.doc_name ["docs/a.pdf"])
      ranking_keywords !! 0 = Some s
    /\ exists pdf_file page_text,
         In pdf_file ["docs/a.pdf"]
         /\ SectionRanker.document s = OutputFormatter.doc_name pdf_file
         /\ extract_text one_page pdf_file !! (SectionRanker.page_number s - 1)
            = Some page_text
         /\ clean_text page_text = page_text
         /\ 100 <= len page_text
         /\ (len page_text <= 1000 ->
             SectionRanker.section_text s = page_text
             /\ SectionRanker.section_index s = 0).
Proof.
  destruct (rank_sections (extract_all one_page OutputFormatter.doc_name ["docs/a.pdf"])
              ranking_keywords !! 0) as [s|] eqn:Hs; [|vm_compute in Hs; discriminate Hs].
  exists s. split; [reflexivity|].
  exact (rank_sections_of_extracted_pages one_page OutputFormatter.doc_name
           ["docs/a.pdf"] ranking_keywords 0 s Hs).
Defined.

(** A text with more than three sentences, no two of them equal, is
    summarised by exactly three of its sentences, in the order of the text
    and joined by single spaces; this holds whatever the scores are. *)
Theorem summary_three_distinct_sentences (text : string) (keywords : list string) :
  3 < length (split_sentences text) ->
  List.NoDup (split_sentences text) ->
  exists picked,
    generate_extractive_summary text keywords = join " " picked
    /\ sublist picked (split_sentences text)
    /\ length picked = 3
    /\ List.NoDup picked.
Proof.
  intros Hlong Hnd.
  destruct (summary_of_distinct_sentences text keywords Hlong Hnd)
    as (Hsummary & Hlen & _).
  eexists. split; [exact Hsummary|].
  split; [apply filter_sublist|]. split; [exact Hlen|].
  now apply List.NoDup_filter.
Qed.

Lemma summary_three_distinct_sentences_witness :
  3 < length (split_sentences four_sentences_text)
  /\ List.NoDup (split_sentences four_sentences_text)
  /\ exists picked,
       generate_extractive_summary four_sentences_text ["neural"] = join " " picked
       /\ sublist picked (split_sentences four_sentences_text)
       /\ length picked = 3
       /\ List.NoDup picked.
Proof.
  assert (Hlong : 3 < length (split_sentences four_sentences_text))
    by (vm_compute; lia).
  assert (Hnd : List.NoDup (split_sentences four_sentences_text)).
  { apply NoDup_ListNoDup. apply (bool_decide_unpack _). vm_compute. exact I. }
  split; [exact Hlong|]. split; [exact Hnd|].
  exact (summary_three_distinct_sentences four_sentences_text ["neural"] Hlong Hnd).
Defined.
